(** * Cap-table engine (src/utils/financial-engine.ts): a shallow embedding

    The engine computes on JavaScript numbers.  The embedding is written once,
    over an interface [JsNumber] of the numeric operations the source uses,
    and read at two carriers:

    - [float] (IEEE 754 binary64, Rocq's primitive floats): the arithmetic
      the program really performs; the runs of the test suite are evaluated
      here;
    - [exact]: rationals carrying a finiteness flag, the exact-arithmetic
      reading used for the algebraic invariants (sums of shares and of
      percentages), where a division by zero or an undefined operand yields
      a value flagged as not a number.

    Objects that the source shares between snapshots (the [esop] record of a
    cap-table state) live in an explicit store, so that in-place assignments
    are visible through every alias. *)

From Stdlib Require Import ZArith QArith Qround Qabs Qminmax Floats.
From Stdlib Require Import String Bool Lia Lqa.
From stdpp Require Import base option list.

Set Warnings "-inexact-float".
Local Open Scope string_scope.
Local Open Scope list_scope.
Local Open Scope Z_scope.

(** ** Numbers *)

(** The operations of JavaScript numbers that the engine uses. *)
Class JsNumber (num : Type) : Type := {
  of_Z : Z -> num;                 (* an integer literal *)
  nan : num;                       (* ToNumber(undefined) *)
  add : num -> num -> num;
  sub : num -> num -> num;
  mul : num -> num -> num;
  div : num -> num -> num;
  gt : num -> num -> bool;         (* x > y *)
  le : num -> num -> bool;         (* x <= y *)
  strict_eq : num -> num -> bool;  (* x === y *)
  Math_abs : num -> num;
  Math_round : num -> num;
  Math_min : num -> num -> num;
  truthy : num -> bool             (* ToBoolean *)
}.

(** A decimal literal [m / 10^k], e.g. [0.01] is [decimal 1 2].  Both
    operands are exact in binary64 for the literals used here, so the
    correctly rounded quotient is the literal's value. *)
Definition decimal {num} `{JsNumber num} (m : Z) (k : nat) : num :=
  div (of_Z m) (of_Z (10 ^ Z.of_nat k)).

(** *** binary64 *)

Module F64.

(** The float of an integer literal (of magnitude below 2^63; the ones used
    are below 2^53 and hence exact). *)
Definition of_Z (z : Z) : float :=
  match z with
  | Z0 => 0%float
  | Zpos _ => PrimFloat.of_uint63 (Uint63.of_Z z)
  | Zneg p => PrimFloat.opp (PrimFloat.of_uint63 (Uint63.of_Z (Zpos p)))
  end.

(** [Math.round]: the integer closest to [x], ties towards +infinity, that is
    floor(x + 1/2) computed without rounding; NaN, infinities, zeros and
    integers are returned unchanged, and a result of zero keeps the sign. *)
Definition round (x : float) : float :=
  match Prim2SF x with
  | S754_finite s m e =>
      if 0 <=? e then x
      else
        let k := - e in
        let n := Z.shiftr ((if s then Zneg m else Zpos m) + Z.shiftl 1 (k - 1)) k in
        if n =? 0 then (if s then (-0)%float else 0%float) else of_Z n
  | _ => x
  end.

(** [Math.min] of two numbers: NaN if either is, and -0 below +0. *)
Definition min (a b : float) : float :=
  if PrimFloat.is_nan a || PrimFloat.is_nan b then PrimFloat.nan
  else if PrimFloat.ltb a b then a
  else if PrimFloat.ltb b a then b
  else match PrimFloat.classify a with NZero => a | _ => b end.

(** ToBoolean: false for +0, -0 and NaN. *)
Definition truthy (x : float) : bool :=
  negb (PrimFloat.eqb x 0%float) && negb (PrimFloat.is_nan x).

End F64.

#[export] Instance float_JsNumber : JsNumber float := {
  of_Z := F64.of_Z;
  nan := PrimFloat.nan;
  add := PrimFloat.add;
  sub := PrimFloat.sub;
  mul := PrimFloat.mul;
  div := PrimFloat.div;
  gt x y := PrimFloat.ltb y x;
  le x y := PrimFloat.leb x y;
  strict_eq := PrimFloat.eqb;
  Math_abs := PrimFloat.abs;
  Math_round := F64.round;
  Math_min := F64.min;
  truthy := F64.truthy
}.

(** *** Exact arithmetic *)

(** A rational with a flag: [ok = false] stands for a value that is not a
    finite number (NaN, or the infinity a division by zero produces), and
    then [val] is meaningless.  Every comparison with such a value is false,
    as with NaN. *)
Record exact : Type := Exact { val : Q; ok : bool }.

Module Ex.

Definition fin (q : Q) : exact := Exact q true.
Definition nan : exact := Exact 0 false.

Definition lift2 (f : Q -> Q -> Q) (x y : exact) : exact :=
  Exact (f (val x) (val y)) (ok x && ok y).

Definition div (x y : exact) : exact :=
  Exact (val x / val y) (ok x && ok y && negb (Qeq_bool (val y) 0)).

Definition gt (x y : exact) : bool :=
  ok x && ok y && negb (Qle_bool (val x) (val y)).

Definition le (x y : exact) : bool :=
  ok x && ok y && Qle_bool (val x) (val y).

Definition eq (x y : exact) : bool :=
  ok x && ok y && Qeq_bool (val x) (val y).

Definition abs (x : exact) : exact := Exact (Qabs (val x)) (ok x).

Definition round (x : exact) : exact :=
  Exact (inject_Z (Qfloor (val x + (1 # 2)))) (ok x).

Definition min (x y : exact) : exact :=
  Exact (if Qle_bool (val x) (val y) then val x else val y) (ok x && ok y).

Definition truthy (x : exact) : bool := ok x && negb (Qeq_bool (val x) 0).

End Ex.

#[export] Instance exact_JsNumber : JsNumber exact := {
  of_Z z := Ex.fin (inject_Z z);
  nan := Ex.nan;
  add := Ex.lift2 Qplus;
  sub := Ex.lift2 Qminus;
  mul := Ex.lift2 Qmult;
  div := Ex.div;
  gt := Ex.gt;
  le := Ex.le;
  strict_eq := Ex.eq;
  Math_abs := Ex.abs;
  Math_round := Ex.round;
  Math_min := Ex.min;
  truthy := Ex.truthy
}.

(** ** Errors *)

(** What a call can raise: [new Error(message)] thrown by the engine, or the
    TypeError of the runtime when a property of [undefined] is read. *)
Inductive JsError : Type :=
  | Error (message : string)
  | TypeError.

Inductive outcome (A : Type) : Type :=
  | Return (a : A)
  | Throw (e : JsError).
Arguments Return {A} a.
Arguments Throw {A} e.

#[export] Instance outcome_ret : MRet outcome := @Return.
#[export] Instance outcome_bind : MBind outcome := fun A B f m =>
  match m with Return a => f a | Throw e => Throw e end.

(** Reading a property of a value that may be [undefined]. *)
Definition deref {A} (o : option A) : outcome A :=
  match o with Some a => Return a | None => Throw TypeError end.

(** ** Data model *)

(** Modelled from the spec: the type declarations of [types/financial] are
    not among the sources.  A financing event is a priced round or a
    convertible instrument. *)
Inductive RoundType : Type := PRICED | SAFE.

Section Engine.

Context {num : Type} {N : JsNumber num}.

(** Modelled from the spec: the records of [types/financial], with the
    fields that the engine reads or writes, named and shaped as the engine
    and its test suite use them.  A field that may be missing is an option. *)
Record Founder : Type := {
  founder_id : string;
  founder_name : string;
  initialEquity : num
}.

Record ESOPPool : Type := {
  pool_id : string;
  pool_percentage : num;
  pool_isPreMoney : bool
}.

Record PricedTerms : Type := {
  preMoneyValuation : option num;
  postMoneyValuation : option num
}.

Record SafeTerms : Type := {
  valuationCap : option num;
  discount : option num
}.

Record EsopAdjustment : Type := {
  newPoolPercentage : num;
  isPreMoney : bool
}.

Record FundingRound : Type := {
  round_id : string;
  round_name : string;
  round_type : RoundType;
  capitalRaised : num;
  pricedTerms : option PricedTerms;
  safeTerms : option SafeTerms;
  esopAdjustment : option EsopAdjustment
}.

Record Scenario : Type := {
  founders : list Founder;
  rounds : list FundingRound;
  esopPools : list ESOPPool
}.

(** [Partial<Scenario>]: every field may be missing. *)
Record PartialScenario : Type := {
  opt_founders : option (list Founder);
  opt_esopPools : option (list ESOPPool)
}.

Record FounderState : Type := {
  fs_id : string;
  fs_name : string;
  fs_shares : num;
  fs_percentage : num
}.

Record InvestorState : Type := {
  inv_id : string;
  inv_name : string;
  inv_shares : num;
  inv_percentage : num;
  investmentAmount : num
}.

(** The [esop] object of a state.  It is the only part of a state that the
    engine assigns to in place, so it is kept in the store and a state holds
    a reference to it. *)
Record EsopState : Type := {
  esop_shares : num;
  esop_percentage : num
}.

(** References are positions in the store. *)
Local Abbreviation loc := nat.
Local Abbreviation store := (list EsopState).

Definition alloc (h : store) (e : EsopState) : store * loc := (h ++ [e], length h).

(** [CapTableState].  [totalShares], [founders] and [investors] are fields
    of the state object itself: a spread copy [{...state}] gives the copy
    its own fields, while [state_esop] still points to the same object. *)
Record CapTableState : Type := {
  totalShares : num;
  state_founders : list FounderState;
  state_esop : loc;
  state_investors : list InvestorState
}.

Record Valuation : Type := {
  preMoney : num;
  postMoney : option num
}.

Record RoundCalculationResult : Type := {
  preRoundState : CapTableState;
  postRoundState : CapTableState;
  newShares : num;
  sharePrice : num;
  valuation : Valuation
}.

Record FounderReturn : Type := {
  founderId : string;
  fr_name : string;
  fr_finalEquity : num;
  fr_cashReturn : num
}.

Record InvestorReturn : Type := {
  investorId : string;
  ir_name : string;
  ir_finalEquity : num;
  ir_cashReturn : num;
  multiple : num
}.

Record ExitSimulation : Type := {
  exitValuation : num;
  founderReturns : list FounderReturn;
  esopValue : num;
  investorReturns : list InvestorReturn
}.

(** ** The engine *)

Definition INITIAL_SHARES : num := of_Z 10000000.

(** ToNumber of a value that may be [undefined]. *)
Definition to_number (o : option num) : num := default nan o.

(** The test [if (x)] on an optional numeric field: the field is set and its
    value is truthy. *)
Definition given (o : option num) : bool :=
  match o with Some x => truthy x | None => false end.

(** [xs.reduce((sum, x) => sum + f(x), 0)] *)
Definition reduce_sum {A} (f : A -> num) (xs : list A) : num :=
  fold_left (fun sum x => add sum (f x)) xs (of_Z 0).

Definition percent_of (part whole : num) : num :=
  mul (div part whole) (of_Z 100).

Definition createInitialState (h : store) (fs : list Founder) (ps : list ESOPPool)
  : outcome (store * CapTableState) :=
  let totalEquityPercent :=
    add (reduce_sum initialEquity fs) (reduce_sum pool_percentage ps) in
  if gt (Math_abs (sub totalEquityPercent (of_Z 100))) (decimal 1 2) then
    Throw (Error "Initial equity must sum to 100%")
  else
    let total := INITIAL_SHARES in
    let esopShares :=
      reduce_sum (fun pool => Math_round (mul (div (pool_percentage pool) (of_Z 100)) total)) ps in
    let '(h', e) := alloc h {| esop_shares := esopShares;
                               esop_percentage := reduce_sum pool_percentage ps |} in
    Return (h', {| totalShares := total;
                   state_founders :=
                     map (fun founder =>
                            {| fs_id := founder_id founder;
                               fs_name := founder_name founder;
                               fs_shares :=
                                 Math_round (mul (div (initialEquity founder) (of_Z 100)) total);
                               fs_percentage := initialEquity founder |}) fs;
                   state_esop := e;
                   state_investors := [] |}).

(** [adjustESOPPool].  Its [state] argument is the caller's fresh copy of the
    previous state; the assignment to [state.founders] in the pre-money
    branch therefore changes that copy only, and shows in the returned
    state.  The returned state carries a newly created [esop] object; when
    no adjustment is needed the argument is returned as it is. *)
Definition adjustESOPPool (h : store) (state : CapTableState)
    (targetPercent : num) (isPre : bool) (newSharesFromRound : num)
  : outcome (store * CapTableState) :=
  esop ← deref (h !! state_esop state);
  let currentESOPPercent := percent_of (esop_shares esop) (totalShares state) in
  if le targetPercent currentESOPPercent then Return (h, state)
  else
    let additionalESOPPercent := sub targetPercent currentESOPPercent in
    let '(additionalESOPShares, founders') :=
      if isPre then
        let additionalESOPShares :=
          mul (div additionalESOPPercent (of_Z 100)) (totalShares state) in
        let dilutionFactor :=
          div (totalShares state) (add (totalShares state) additionalESOPShares) in
        (additionalESOPShares,
         map (fun founder =>
                {| fs_id := fs_id founder;
                   fs_name := fs_name founder;
                   fs_shares := Math_round (mul (fs_shares founder) dilutionFactor);
                   fs_percentage := fs_percentage founder |}) (state_founders state))
      else
        let futureShares := add (totalShares state) newSharesFromRound in
        (sub (mul (div targetPercent (of_Z 100)) futureShares) (esop_shares esop),
         state_founders state) in
    let '(h', e) := alloc h {| esop_shares := add (esop_shares esop) additionalESOPShares;
                               esop_percentage := targetPercent |} in
    Return (h', {| totalShares := totalShares state;
                   state_founders := founders';
                   state_esop := e;
                   state_investors := state_investors state |}).

(** The pricing step of [processRound] (the branch on [round.type] that
    opens the function): share price, pre-money valuation, post-money
    valuation and new shares, or the error thrown. *)
Definition priceRound (total : num) (round : FundingRound)
  : outcome (num * num * option num * num) :=
  match round_type round with
  | PRICED =>
      terms ← deref (pricedTerms round);
      if given (preMoneyValuation terms) then
        let preMoney := to_number (preMoneyValuation terms) in
        let sharePrice := div preMoney total in
        let newShares := div (capitalRaised round) sharePrice in
        let postMoney := add preMoney (capitalRaised round) in
        Return (sharePrice, preMoney, Some postMoney, newShares)
      else
        let postMoney := postMoneyValuation terms in
        let preMoney := sub (to_number postMoney) (capitalRaised round) in
        let sharePrice := div preMoney total in
        let newShares := div (capitalRaised round) sharePrice in
        Return (sharePrice, preMoney, postMoney, newShares)
  | SAFE =>
      safe ← deref (safeTerms round);
      sharePrice ←
        (if given (valuationCap safe) then
           Return (div (to_number (valuationCap safe)) total)
         else Throw (Error "SAFE without cap requires conversion round details"));
      let sharePrice :=
        if given (discount safe) then
          let discountPrice :=
            mul sharePrice (sub (of_Z 1) (div (to_number (discount safe)) (of_Z 100))) in
          Math_min sharePrice discountPrice
        else sharePrice in
      let newShares := div (capitalRaised round) sharePrice in
      let preMoney := mul sharePrice total in
      let postMoney := add preMoney (capitalRaised round) in
      Return (sharePrice, preMoney, Some postMoney, newShares)
  end.

(** [processRound].  [postRoundState] starts as the spread copy of
    [preRoundState]: same field values, same [esop] reference.  The
    assignment [postRoundState.esop.percentage = ...] writes into the object
    that reference designates. *)
Definition processRound (h : store) (pre : CapTableState) (round : FundingRound)
  : outcome (store * RoundCalculationResult) :=
  let post := pre in
  '(sharePrice, preMoney, postMoney, newShares) ← priceRound (totalShares post) round;
  '(h, post) ←
    match esopAdjustment round with
    | Some adj => adjustESOPPool h post (newPoolPercentage adj) (isPreMoney adj) newShares
    | None => Return (h, post)
    end;
  let newTotalShares := add (totalShares post) newShares in
  let investorEquityPercent := percent_of newShares newTotalShares in
  let founders' :=
    map (fun founder =>
           {| fs_id := fs_id founder;
              fs_name := fs_name founder;
              fs_shares := fs_shares founder;
              fs_percentage := percent_of (fs_shares founder) newTotalShares |})
        (state_founders post) in
  esop ← deref (h !! state_esop post);
  let h := <[state_esop post :=
               {| esop_shares := esop_shares esop;
                  esop_percentage := percent_of (esop_shares esop) newTotalShares |}]> h in
  let investors' :=
    map (fun investor =>
           {| inv_id := inv_id investor;
              inv_name := inv_name investor;
              inv_shares := inv_shares investor;
              inv_percentage := percent_of (inv_shares investor) newTotalShares;
              investmentAmount := investmentAmount investor |})
        (state_investors post)
    ++ [ {| inv_id := String.append "investor-" (round_id round);
            inv_name := String.append (round_name round) " Investor";
            inv_shares := newShares;
            inv_percentage := investorEquityPercent;
            investmentAmount := capitalRaised round |} ] in
  Return (h, {| preRoundState := pre;
                postRoundState := {| totalShares := newTotalShares;
                                     state_founders := founders';
                                     state_esop := state_esop post;
                                     state_investors := investors' |};
                newShares := newShares;
                sharePrice := sharePrice;
                valuation := {| preMoney := preMoney; postMoney := postMoney |} |}).

(** The loop of [calculateCapTable]: the states pushed after the initial one. *)
Fixpoint processRounds (h : store) (currentState : CapTableState) (rs : list FundingRound)
  : outcome (store * list CapTableState) :=
  match rs with
  | [] => Return (h, [])
  | round :: rs' =>
      '(h, result) ← processRound h currentState round;
      '(h, states) ← processRounds h (postRoundState result) rs';
      Return (h, postRoundState result :: states)
  end.

(** [calculateCapTable], run on an empty store: the returned snapshots are
    read in the store the call leaves behind. *)
Definition calculateCapTable (scenario : Scenario) : outcome (store * list CapTableState) :=
  '(h, currentState) ← createInitialState [] (founders scenario) (esopPools scenario);
  '(h, states) ← processRounds h currentState (rounds scenario);
  Return (h, currentState :: states).

Definition simulateExit (h : store) (finalState : CapTableState) (exitValuation : num)
  : outcome ExitSimulation :=
  let founderReturns :=
    map (fun founder =>
           {| founderId := fs_id founder;
              fr_name := fs_name founder;
              fr_finalEquity := fs_percentage founder;
              fr_cashReturn := mul (div (fs_percentage founder) (of_Z 100)) exitValuation |})
        (state_founders finalState) in
  let investorReturns :=
    map (fun investor =>
           {| investorId := inv_id investor;
              ir_name := inv_name investor;
              ir_finalEquity := inv_percentage investor;
              ir_cashReturn := mul (div (inv_percentage investor) (of_Z 100)) exitValuation;
              multiple := div (mul (div (inv_percentage investor) (of_Z 100)) exitValuation)
                              (investmentAmount investor) |})
        (state_investors finalState) in
  esop ← deref (h !! state_esop finalState);
  let esopValue := mul (div (esop_percentage esop) (of_Z 100)) exitValuation in
  Return {| exitValuation := exitValuation;
            founderReturns := founderReturns;
            esopValue := esopValue;
            investorReturns := investorReturns |}.

Definition validateScenario (scenario : PartialScenario) : outcome (list string) :=
  let errors : list string := [] in
  let errors :=
    match opt_founders scenario with
    | None => errors ++ ["At least one founder is required"]
    | Some fs =>
        if (length fs =? 0)%nat then errors ++ ["At least one founder is required"]
        else errors
    end in
  let errors :=
    match opt_founders scenario with
    | Some fs =>
        let totalEquity :=
          add (reduce_sum initialEquity fs)
              (reduce_sum pool_percentage (default [] (opt_esopPools scenario))) in
        if gt (Math_abs (sub totalEquity (of_Z 100))) (decimal 1 2) then
          errors ++ ["Total equity must sum to 100%"]
        else errors
    | None => errors
    end in
  Return errors.

End Engine.

Arguments Founder : clear implicits.
Arguments ESOPPool : clear implicits.
Arguments PricedTerms : clear implicits.
Arguments SafeTerms : clear implicits.
Arguments EsopAdjustment : clear implicits.
Arguments FundingRound : clear implicits.
Arguments Scenario : clear implicits.
Arguments PartialScenario : clear implicits.
Arguments FounderState : clear implicits.
Arguments InvestorState : clear implicits.
Arguments EsopState : clear implicits.
Arguments CapTableState : clear implicits.
Arguments Valuation : clear implicits.
Arguments RoundCalculationResult : clear implicits.
Arguments FounderReturn : clear implicits.
Arguments InvestorReturn : clear implicits.
Arguments ExitSimulation : clear implicits.

Abbreviation loc := nat.
Abbreviation store num := (list (EsopState num)).

(** ** Observations on a state

    What a caller reads off a snapshot: a state together with the store in
    which its [esop] reference is looked up. *)

Section Observations.

Context {num : Type} {N : JsNumber num}.

(** Founders' shares + pool shares + investors' shares. *)
Definition share_sum (h : store num) (s : CapTableState num) : option num :=
  e ← h !! state_esop s;
  Some (add (add (reduce_sum fs_shares (state_founders s)) (esop_shares e))
            (reduce_sum inv_shares (state_investors s))).

(** Founders' percentages + pool percentage + investors' percentages. *)
Definition percentage_sum (h : store num) (s : CapTableState num) : option num :=
  e ← h !! state_esop s;
  Some (add (add (reduce_sum fs_percentage (state_founders s)) (esop_percentage e))
            (reduce_sum inv_percentage (state_investors s))).

(** The sum of all share counts equals the state's total. *)
Definition shares_balanced (h : store num) (s : CapTableState num) : bool :=
  match share_sum h s with
  | Some x => strict_eq x (totalShares s)
  | None => false
  end.

(** The sum of all percentages is within 0.01 of 100. *)
Definition percentages_balanced (h : store num) (s : CapTableState num) : bool :=
  match percentage_sum h s with
  | Some p => le (Math_abs (sub p (of_Z 100))) (decimal 1 2)
  | None => false
  end.

(** The pool record of a state, as the store holds it. *)
Definition pool_of (h : store num) (s : CapTableState num) : option (EsopState num) :=
  h !! state_esop s.

(** Everything a caller can read off a snapshot. *)
Definition snapshot (h : store num) (s : CapTableState num)
  : num * list (FounderState num) * option (EsopState num) * list (InvestorState num) :=
  (totalShares s, state_founders s, pool_of h s, state_investors s).

(** Founders' and investors' cash returns plus the pool's value. *)
Definition total_proceeds (sim : ExitSimulation num) : num :=
  add (add (reduce_sum fr_cashReturn (founderReturns sim)) (esopValue sim))
      (reduce_sum ir_cashReturn (investorReturns sim)).

(** The investor record [processRound] appends for a round. *)
Definition new_investor (r : FundingRound num) (ns total' : num) : InvestorState num :=
  {| inv_id := String.append "investor-" (round_id r);
     inv_name := String.append (round_name r) " Investor";
     inv_shares := ns;
     inv_percentage := percent_of ns total';
     investmentAmount := capitalRaised r |}.

(** The founders-plus-pools total that [validateScenario] compares with 100. *)
Definition totalEquity (fs : list (Founder num)) (sc : PartialScenario num) : num :=
  add (reduce_sum initialEquity fs)
      (reduce_sum pool_percentage (default [] (opt_esopPools sc))).



(** The three ways in which a round can fail. *)
Definition round_failure (r : FundingRound num) (e : JsError) : Prop :=
  (round_type r = PRICED /\ pricedTerms r = None /\ e = TypeError) \/
  (round_type r = SAFE /\ safeTerms r = None /\ e = TypeError) \/
  (round_type r = SAFE /\
   (exists terms, safeTerms r = Some terms /\ given (valuationCap terms) = false) /\
   e = Error "SAFE without cap requires conversion round details").

End Observations.

(** Laws of the number models that the proofs rely on. *)
Class JsNumberLaws (num : Type) {N : JsNumber num} : Prop := {
  zero_is_falsy : forall x : num, strict_eq x (of_Z 0) = true -> truthy x = false
}.

(** ** Test scenarios (the fixtures of the engine's test suite) *)

Section Fixtures.

Context {num : Type} {N : JsNumber num}.

Definition founder0 (equity : num) : Founder num :=
  {| founder_id := "founder-0"; founder_name := "Founder 1"; initialEquity := equity |}.

Definition founder1 (equity : num) : Founder num :=
  {| founder_id := "founder-1"; founder_name := "Founder 2"; initialEquity := equity |}.

Definition pool0 (percentage : num) : ESOPPool num :=
  {| pool_id := "esop-0"; pool_percentage := percentage; pool_isPreMoney := true |}.

(** A priced round given by its pre-money valuation. *)
Definition pricedRound (capital pre : num) (adj : option (EsopAdjustment num))
  : FundingRound num :=
  {| round_id := "round-0"; round_name := "Round 1"; round_type := PRICED;
     capitalRaised := capital;
     pricedTerms := Some {| preMoneyValuation := Some pre; postMoneyValuation := None |};
     safeTerms := None;
     esopAdjustment := adj |}.

(** A priced round given by its post-money valuation. *)
Definition postpricedRound (capital post : num) : FundingRound num :=
  {| round_id := "round-0"; round_name := "Round 1"; round_type := PRICED;
     capitalRaised := capital;
     pricedTerms := Some {| preMoneyValuation := None; postMoneyValuation := Some post |};
     safeTerms := None;
     esopAdjustment := None |}.

(** A priced round whose terms carry neither valuation. *)
Definition unpricedRound (capital : num) : FundingRound num :=
  {| round_id := "round-0"; round_name := "Round 1"; round_type := PRICED;
     capitalRaised := capital;
     pricedTerms := Some {| preMoneyValuation := None; postMoneyValuation := None |};
     safeTerms := None;
     esopAdjustment := None |}.

Definition safeRound (capital : num) (cap disc : option num) : FundingRound num :=
  {| round_id := "round-0"; round_name := "Round 1"; round_type := SAFE;
     capitalRaised := capital;
     pricedTerms := None;
     safeTerms := Some {| valuationCap := cap; discount := disc |};
     esopAdjustment := None |}.

(** "should handle single priced round correctly" *)
Definition single_priced_scenario : Scenario num :=
  {| founders := [founder0 (of_Z 100)];
     rounds := [pricedRound (of_Z 1000000) (of_Z 4000000) None];
     esopPools := [] |}.

(** A single founder and one priced round whose terms carry neither
    valuation. *)
Definition unpriced_scenario : Scenario num :=
  {| founders := [founder0 (of_Z 100)];
     rounds := [unpricedRound (of_Z 1000000)];
     esopPools := [] |}.

(** "should handle priced round with pre-money ESOP top-up" *)
Definition topup_scenario : Scenario num :=
  {| founders := [founder0 (of_Z 90); founder1 (of_Z 10)];
     rounds := [pricedRound (of_Z 2000000) (of_Z 8000000)
                  (Some {| newPoolPercentage := of_Z 15; isPreMoney := true |})];
     esopPools := [] |}.

(** "should handle SAFE with discount" *)
Definition safe_discount_scenario : Scenario num :=
  {| founders := [founder0 (of_Z 100)];
     rounds := [safeRound (of_Z 250000) (Some (of_Z 10000000)) (Some (of_Z 20))];
     esopPools := [] |}.

(** The founders and pool of "should handle ESOP pool at incorporation",
    followed by one priced round without a pool directive. *)
Definition pool_then_round_scenario : Scenario num :=
  {| founders := [founder0 (of_Z 70); founder1 (of_Z 20)];
     rounds := [pricedRound (of_Z 1000000) (of_Z 4000000) None];
     esopPools := [pool0 (of_Z 10)] |}.

(** Founders at 70 and 20 percent with a 10 percent pool, a priced round and
    then a convertible instrument with cap and discount, neither with a pool
    directive. *)
Definition two_round_scenario : Scenario num :=
  {| founders := [founder0 (of_Z 70); founder1 (of_Z 20)];
     rounds := [pricedRound (of_Z 1000000) (of_Z 4000000) None;
                {| round_id := "round-1"; round_name := "Round 2"; round_type := SAFE;
                   capitalRaised := of_Z 250000;
                   pricedTerms := None;
                   safeTerms := Some {| valuationCap := Some (of_Z 10000000);
                                        discount := Some (of_Z 20) |};
                   esopAdjustment := None |}];
     esopPools := [pool0 (of_Z 10)] |}.

(** "should create correct initial state for two founders" *)
Definition two_founder_scenario : Scenario num :=
  {| founders := [founder0 (of_Z 60); founder1 (of_Z 40)]; rounds := []; esopPools := [] |}.

(** "should handle SAFE with valuation cap" *)
Definition safe_cap_scenario : Scenario num :=
  {| founders := [founder0 (of_Z 100)];
     rounds := [safeRound (of_Z 500000) (Some (of_Z 5000000)) None];
     esopPools := [] |}.

(** Three founders at 33.333333, 33.333333 and 33.333334 percent. *)
Definition thirds_scenario : Scenario num :=
  {| founders := [founder0 (decimal 33333333 6); founder1 (decimal 33333333 6);
                  {| founder_id := "founder-2"; founder_name := "Founder 3";
                     initialEquity := decimal 33333334 6 |}];
     rounds := []; esopPools := [] |}.

(** A priced round with a post-money pool top-up. *)
Definition postmoney_topup_round (target : num) : FundingRound num :=
  pricedRound (of_Z 2000000) (of_Z 8000000)
    (Some {| newPoolPercentage := target; isPreMoney := false |}).

(** One founder at 100.005 percent: inside the 0.01 tolerance of the
    founding check. *)
Definition tolerance_scenario : Scenario num :=
  {| founders := [founder0 (decimal 100005 3)]; rounds := []; esopPools := [] |}.

(** The store and the state built at founding for a single founder at 100
    percent and no pool. *)
Definition solo_store : store num :=
  [ {| esop_shares := of_Z 0; esop_percentage := of_Z 0 |} ].

Definition solo_state : CapTableState num :=
  {| totalShares := of_Z 10000000;
     state_founders :=
       [ {| fs_id := "founder-0"; fs_name := "Founder 1";
            fs_shares := of_Z 10000000; fs_percentage := of_Z 100 |} ];
     state_esop := 0%nat;
     state_investors := [] |}.

(** The store and the state built at founding for founders at 70 and 20
    percent with a 10 percent pool. *)
Definition pooled_store : store num :=
  [ {| esop_shares := of_Z 1000000; esop_percentage := of_Z 10 |} ].

Definition pooled_state : CapTableState num :=
  {| totalShares := of_Z 10000000;
     state_founders :=
       [ {| fs_id := "founder-0"; fs_name := "Founder 1";
            fs_shares := of_Z 7000000; fs_percentage := of_Z 70 |};
         {| fs_id := "founder-1"; fs_name := "Founder 2";
            fs_shares := of_Z 2000000; fs_percentage := of_Z 20 |} ];
     state_esop := 0%nat;
     state_investors := [] |}.

End Fixtures.

(** ** Exact arithmetic: what the invariants are stated with *)

Section Exact_definitions.

Local Open Scope Q_scope.

(** The sum of the values of [f] over a list, and whether they are all
    finite numbers. *)
Definition sumv {A} (f : A -> exact) (l : list A) : Q :=
  fold_right (fun x acc => val (f x) + acc) 0 l.

Definition allok {A} (f : A -> exact) (l : list A) : bool :=
  forallb (fun x => ok (f x)) l.

(** A finite number above zero; a finite number not below zero. *)
Definition positive (x : exact) : bool := ok x && negb (Qle_bool (val x) 0).
Definition nonneg (x : exact) : bool := ok x && Qle_bool 0 (val x).

(** A financing event without a pool directive that raises a non-negative
    amount at a positive price: a priced round whose pre-money valuation
    (the one given, or the post-money valuation less the capital) is
    positive, or a convertible instrument with a positive cap and, when a
    discount is given, a discount below 100 percent. *)
Definition ordinary_round (r : FundingRound exact) : bool :=
  match esopAdjustment r with
  | Some _ => false
  | None =>
      nonneg (capitalRaised r) &&
      match round_type r with
      | PRICED =>
          match pricedTerms r with
          | Some terms =>
              if given (preMoneyValuation terms)
              then positive (to_number (preMoneyValuation terms))
              else positive (sub (to_number (postMoneyValuation terms)) (capitalRaised r))
          | None => false
          end
      | SAFE =>
          match safeTerms r with
          | Some terms =>
              positive (to_number (valuationCap terms)) &&
              (if given (discount terms)
               then positive (sub (of_Z 100) (to_number (discount terms)))
               else true)
          | None => false
          end
      end
  end.

(** The share counts of a state whose pool holds [E] shares are finite and
    add up to its total, which is positive. *)
Definition balanced_with (E : exact) (s : CapTableState exact) : Prop :=
  positive (totalShares s) = true /\
  allok fs_shares (state_founders s) = true /\
  ok E = true /\
  allok inv_shares (state_investors s) = true /\
  sumv fs_shares (state_founders s) + val E + sumv inv_shares (state_investors s)
  == val (totalShares s).

(** Every founder's and investor's percentage is a finite number, and they
    add up to the holders' share of the total. *)
Definition percentages_of_shares (s : CapTableState exact) : Prop :=
  allok fs_percentage (state_founders s) = true /\
  allok inv_percentage (state_investors s) = true /\
  sumv fs_percentage (state_founders s)
  == sumv fs_shares (state_founders s) / val (totalShares s) * 100 /\
  sumv inv_percentage (state_investors s)
  == sumv inv_shares (state_investors s) / val (totalShares s) * 100.

End Exact_definitions.

(** The share counts given out at founding add up to the share base. *)
Definition founding_shares_balanced {num} {N : JsNumber num} (sc : Scenario num) : bool :=
  match createInitialState [] (founders sc) (esopPools sc) with
  | Return (h0, s0) => shares_balanced h0 s0
  | Throw _ => false
  end.

(** ** Further observations *)

Section More_observations.

Context {num : Type} {N : JsNumber num}.

(** A complete scenario passed where a [Partial<Scenario>] is expected:
    both fields are present. *)
Definition as_partial (sc : Scenario num) : PartialScenario num :=
  {| opt_founders := Some (founders sc); opt_esopPools := Some (esopPools sc) |}.

(** A financing event that carries the terms object of its type and, for a
    convertible instrument, a cap that is given. *)
Definition well_formed_round (r : FundingRound num) : bool :=
  match round_type r with
  | PRICED => match pricedTerms r with Some _ => true | None => false end
  | SAFE => match safeTerms r with
            | Some terms => given (valuationCap terms)
            | None => false
            end
  end.

(** A round with the pool directive taken away. *)
Definition without_adjustment (r : FundingRound num) : FundingRound num :=
  {| round_id := round_id r; round_name := round_name r; round_type := round_type r;
     capitalRaised := capitalRaised r;
     pricedTerms := pricedTerms r;
     safeTerms := safeTerms r;
     esopAdjustment := None |}.

(** What identifies an investor and what it holds and paid: everything but
    the percentage. *)
Definition holding (i : InvestorState num) : string * string * num * num :=
  (inv_id i, inv_name i, inv_shares i, investmentAmount i).

(** Who a founder is. *)
Definition identity (f : FounderState num) : string * string := (fs_id f, fs_name f).

End More_observations.

(** [Number.isFinite] negated: NaN or an infinity. *)
Definition not_finite (x : float) : bool :=
  match Prim2SF x with
  | S754_nan | S754_infinity _ => true
  | _ => false
  end.

Section Table_observations.

Context {num : Type} {N : JsNumber num}.

(** The investor entry a financing event gives rise to: its id and name
    and the amount invested. *)
Definition backer (r : FundingRound num) : string * string * num :=
  (String.append "investor-" (round_id r), String.append (round_name r) " Investor",
   capitalRaised r).

Definition backing (i : InvestorState num) : string * string * num :=
  (inv_id i, inv_name i, investmentAmount i).

End Table_observations.

Section Run_observations.

Context {num : Type} {N : JsNumber num}.

(** [round.safeTerms?.valuationCap]: the cap a financing event carries, if
    it carries one. *)
Definition cap_of (r : FundingRound num) : option num :=
  safeTerms r ≫= valuationCap.







(** A convertible instrument that carries no terms object. *)
Definition bareSafeRound (capital : num) : FundingRound num :=
  {| round_id := "round-0"; round_name := "Round 1"; round_type := SAFE;
     capitalRaised := capital;
     pricedTerms := None; safeTerms := None; esopAdjustment := None |}.

End Run_observations.

Section Exact_run_definitions.




End Exact_run_definitions.

(** * Properties *)

(** ** Facts that hold for every number model *)

Section Generic_facts.

Context {num : Type} {N : JsNumber num}.

Implicit Types (h : store num) (s : CapTableState num) (r : FundingRound num).

Lemma bind_Return {A B} (a : A) (f : A -> outcome B) : (Return a ≫= f) = f a.
Proof. reflexivity. Qed.

(** *** The pool step *)

(** [adjustESOPPool] never throws on a state whose pool reference is valid;
    it leaves the total, the investors and every existing store cell alone. *)
Lemma adjustESOPPool_returns h s target isPre ns :
  is_Some (h !! state_esop s) ->
  exists h' s',
    adjustESOPPool h s target isPre ns = Return (h', s') /\
    totalShares s' = totalShares s /\
    state_investors s' = state_investors s /\
    is_Some (h' !! state_esop s') /\
    (forall l e, h !! l = Some e -> h' !! l = Some e).
Proof.
  intros [e He]. unfold adjustESOPPool. rewrite He. simpl.
  destruct (le target _).
  - exists h, s. eauto 10.
  - destruct isPre; simpl; eexists _, _; (split; [reflexivity|]); simpl;
      (split_and!; [done | done | eexists; by apply list_lookup_middle
                   | intros l e' Hl; by apply lookup_app_l_Some]).
Qed.

(** Either nothing changes, or the returned state refers to a pool record
    created by the call, behind every record the store already held. *)
Lemma adjustESOPPool_store h s target isPre ns h' s' :
  adjustESOPPool h s target isPre ns = Return (h', s') ->
  (h' = h /\ s' = s) \/
  (exists e', h' = h ++ [e'] /\ state_esop s' = length h).
Proof.
  unfold adjustESOPPool. destruct (h !! state_esop s) as [e|]; [|done]. simpl.
  destruct (le target _).
  - intros [= <- <-]. by left.
  - destruct isPre; simpl; intros [= <- <-]; right; eauto.
Qed.

(** *** One round *)

(** An error of the pricing step is the error of [processRound]: nothing
    is written and no state is returned. *)
Lemma processRound_throws h s r e :
  priceRound (totalShares s) r = Throw e -> processRound h s r = Throw e.
Proof. intros Hp. unfold processRound. by rewrite Hp. Qed.

(** Once the round is priced, [processRound] returns: the pool step cannot
    fail on a state whose pool reference is valid. *)
Lemma processRound_returns h s r sp pm po ns :
  priceRound (totalShares s) r = Return (sp, pm, po, ns) ->
  is_Some (h !! state_esop s) ->
  exists h' post,
    processRound h s r =
      Return (h', {| preRoundState := s; postRoundState := post; newShares := ns;
                     sharePrice := sp;
                     valuation := {| preMoney := pm; postMoney := po |} |}) /\
    totalShares post = add (totalShares s) ns /\
    last (state_investors post) = Some (new_investor r ns (totalShares post)).
Proof.
  intros Hp Hs. unfold processRound. rewrite Hp, bind_Return.
  assert (Hadj : exists h1 s1,
             match esopAdjustment r with
             | Some adj => adjustESOPPool h s (newPoolPercentage adj) (isPreMoney adj) ns
             | None => Return (h, s)
             end = Return (h1, s1) /\
             totalShares s1 = totalShares s /\ is_Some (h1 !! state_esop s1)).
  { destruct (esopAdjustment r) as [adj|].
    - destruct (adjustESOPPool_returns h s (newPoolPercentage adj) (isPreMoney adj) ns Hs)
        as (h1 & s1 & -> & Ht & _ & Hs1 & _). eauto.
    - eauto. }
  destruct Hadj as (h1 & s1 & -> & Ht & [e1 He1]).
  rewrite bind_Return, He1. simpl. rewrite Ht.
  eexists _, _. split; [reflexivity|]. simpl. split; [done|].
  by rewrite last_snoc.
Qed.

(** Without a pool directive the round is applied to the previous state's
    own pool record, and the record is rewritten where it stands. *)
Lemma processRound_plain h s r e sp pm po ns :
  priceRound (totalShares s) r = Return (sp, pm, po, ns) ->
  esopAdjustment r = None ->
  h !! state_esop s = Some e ->
  let total' := add (totalShares s) ns in
  processRound h s r =
    Return (<[state_esop s := {| esop_shares := esop_shares e;
                                 esop_percentage := percent_of (esop_shares e) total' |}]> h,
            {| preRoundState := s;
               postRoundState :=
                 {| totalShares := total';
                    state_founders :=
                      map (fun f => {| fs_id := fs_id f; fs_name := fs_name f;
                                       fs_shares := fs_shares f;
                                       fs_percentage := percent_of (fs_shares f) total' |})
                          (state_founders s);
                    state_esop := state_esop s;
                    state_investors :=
                      map (fun i => {| inv_id := inv_id i; inv_name := inv_name i;
                                       inv_shares := inv_shares i;
                                       inv_percentage := percent_of (inv_shares i) total';
                                       investmentAmount := investmentAmount i |})
                          (state_investors s) ++ [new_investor r ns total'] |};
               newShares := ns; sharePrice := sp;
               valuation := {| preMoney := pm; postMoney := po |} |}).
Proof.
  intros Hp Hadj He. unfold processRound. rewrite Hp, bind_Return, Hadj, bind_Return.
  simpl. by rewrite He.
Qed.

(** What [processRound] leaves alone: the result carries the previous state
    as it was passed; every pool record of the store keeps its share count,
    and only the record the returned state refers to can differ at all. *)
Lemma processRound_frame h s r h' res :
  processRound h s r = Return (h', res) ->
  preRoundState res = s /\
  forall l e, h !! l = Some e ->
    exists e', h' !! l = Some e' /\ esop_shares e' = esop_shares e /\
               (l <> state_esop (postRoundState res) -> e' = e).
Proof.
  unfold processRound.
  destruct (priceRound (totalShares s) r) as [[[[sp pm] po] ns]|]; [|done].
  rewrite bind_Return.
  destruct (match esopAdjustment r with
            | Some adj => adjustESOPPool h s (newPoolPercentage adj) (isPreMoney adj) ns
            | None => Return (h, s)
            end) as [[h1 s1]|] eqn:Hadj; [|done].
  rewrite bind_Return.
  destruct (h1 !! state_esop s1) as [e1|] eqn:He1; [|done].
  cbn [deref]. rewrite bind_Return.
  intros [= <- <-]. split; [done|]. cbn [postRoundState state_esop]. intros l e Hl.
  assert (Hcases : (h1 = h /\ s1 = s) \/
                   (exists e', h1 = h ++ [e'] /\ state_esop s1 = length h)).
  { destruct (esopAdjustment r) as [adj|].
    - by eapply adjustESOPPool_store.
    - injection Hadj as <- <-. by left. }
  destruct Hcases as [[-> ->]|(e' & -> & Hloc)].
  - destruct (decide (l = state_esop s)) as [->|Hne].
    + eexists. split; [apply list_lookup_insert_eq; by eapply lookup_lt_Some|].
      simpl. split; [congruence|done].
    + exists e. by rewrite list_lookup_insert_ne.
  - assert (l < length h)%nat by (by eapply lookup_lt_Some).
    exists e. rewrite list_lookup_insert_ne by lia.
    by rewrite lookup_app_l.
Qed.

(** *** Pricing *)

Lemma priceRound_priced_pre r (terms : PricedTerms num) total P :
  round_type r = PRICED ->
  pricedTerms r = Some terms ->
  preMoneyValuation terms = Some P ->
  truthy P = true ->
  priceRound total r =
    Return (div P total, P, Some (add P (capitalRaised r)),
            div (capitalRaised r) (div P total)).
Proof.
  intros Hty Hterms HP Htr. unfold priceRound.
  rewrite Hty, Hterms. simpl. rewrite HP. simpl. by rewrite Htr.
Qed.

Lemma priceRound_priced_post r (terms : PricedTerms num) total :
  round_type r = PRICED ->
  pricedTerms r = Some terms ->
  given (preMoneyValuation terms) = false ->
  let pre := sub (to_number (postMoneyValuation terms)) (capitalRaised r) in
  priceRound total r =
    Return (div pre total, pre, postMoneyValuation terms,
            div (capitalRaised r) (div pre total)).
Proof.
  intros Hty Hterms Hg. unfold priceRound.
  rewrite Hty, Hterms. simpl. by rewrite Hg.
Qed.

Lemma priceRound_safe r (terms : SafeTerms num) total V :
  round_type r = SAFE ->
  safeTerms r = Some terms ->
  valuationCap terms = Some V ->
  truthy V = true ->
  let price :=
    match discount terms with
    | Some d =>
        if truthy d
        then Math_min (div V total) (mul (div V total) (sub (of_Z 1) (div d (of_Z 100))))
        else div V total
    | None => div V total
    end in
  priceRound total r =
    Return (price, mul price total, Some (add (mul price total) (capitalRaised r)),
            div (capitalRaised r) price).
Proof.
  intros Hty Hterms HV Htr. unfold priceRound.
  rewrite Hty, Hterms. simpl. rewrite HV. simpl. rewrite Htr. simpl.
  by destruct (discount terms) as [d|]; simpl; [destruct (truthy d)|].
Qed.

Lemma processRound_priced_pre h s r (terms : PricedTerms num) P :
  round_type r = PRICED ->
  pricedTerms r = Some terms ->
  preMoneyValuation terms = Some P ->
  truthy P = true ->
  is_Some (h !! state_esop s) ->
  exists h' res,
    processRound h s r = Return (h', res) /\
    sharePrice res = div P (totalShares s) /\
    newShares res = div (capitalRaised r) (sharePrice res) /\
    preMoney (valuation res) = P /\
    postMoney (valuation res) = Some (add P (capitalRaised r)) /\
    totalShares (postRoundState res) = add (totalShares s) (newShares res).
Proof.
  intros Hty Hterms HP Htr Hs.
  destruct (processRound_returns h s r _ _ _ _
              (priceRound_priced_pre r terms (totalShares s) P Hty Hterms HP Htr) Hs)
    as (h' & post & -> & Htotal & _).
  eexists _, _. split; [reflexivity|]. simpl. by split_and!.
Qed.

Lemma processRound_priced_post h s r (terms : PricedTerms num) Q :
  round_type r = PRICED ->
  pricedTerms r = Some terms ->
  given (preMoneyValuation terms) = false ->
  postMoneyValuation terms = Some Q ->
  is_Some (h !! state_esop s) ->
  exists h' res,
    processRound h s r = Return (h', res) /\
    preMoney (valuation res) = sub Q (capitalRaised r) /\
    sharePrice res = div (preMoney (valuation res)) (totalShares s) /\
    newShares res = div (capitalRaised r) (sharePrice res) /\
    postMoney (valuation res) = Some Q /\
    totalShares (postRoundState res) = add (totalShares s) (newShares res).
Proof.
  intros Hty Hterms Hg HQ Hs.
  destruct (processRound_returns h s r _ _ _ _
              (priceRound_priced_post r terms (totalShares s) Hty Hterms Hg) Hs)
    as (h' & post & -> & Htotal & _).
  rewrite HQ in Htotal. simpl in Htotal.
  eexists _, _. split; [reflexivity|]. simpl. rewrite HQ. simpl. by split_and!.
Qed.

Lemma processRound_safe h s r (terms : SafeTerms num) V :
  round_type r = SAFE ->
  safeTerms r = Some terms ->
  valuationCap terms = Some V ->
  truthy V = true ->
  is_Some (h !! state_esop s) ->
  exists h' res,
    processRound h s r = Return (h', res) /\
    sharePrice res =
      match discount terms with
      | Some d =>
          if truthy d
          then Math_min (div V (totalShares s))
                        (mul (div V (totalShares s)) (sub (of_Z 1) (div d (of_Z 100))))
          else div V (totalShares s)
      | None => div V (totalShares s)
      end /\
    newShares res = div (capitalRaised r) (sharePrice res) /\
    totalShares (postRoundState res) = add (totalShares s) (newShares res).
Proof.
  intros Hty Hterms HV Htr Hs.
  destruct (processRound_returns h s r _ _ _ _
              (priceRound_safe r terms (totalShares s) V Hty Hterms HV Htr) Hs)
    as (h' & post & -> & Htotal & _).
  eexists _, _. split; [reflexivity|]. simpl. by split_and!.
Qed.


(** A cap that is not given stops the conversion. *)
Lemma processRound_falsy_cap h s r (terms : SafeTerms num) :
  round_type r = SAFE ->
  safeTerms r = Some terms ->
  given (valuationCap terms) = false ->
  processRound h s r =
    Throw (Error "SAFE without cap requires conversion round details").
Proof.
  intros Hty Hterms Hg. apply processRound_throws.
  unfold priceRound. rewrite Hty, Hterms. simpl. by rewrite Hg.
Qed.

(** A round that lacks the terms object of its type fails with the
    runtime's TypeError, raised by the first property read. *)
Lemma priced_round_without_terms h s r :
  round_type r = PRICED -> pricedTerms r = None -> processRound h s r = Throw TypeError.
Proof.
  intros Hty Hterms. apply processRound_throws. unfold priceRound. by rewrite Hty, Hterms.
Qed.

Lemma safe_round_without_terms h s r :
  round_type r = SAFE -> safeTerms r = None -> processRound h s r = Throw TypeError.
Proof.
  intros Hty Hterms. apply processRound_throws. unfold priceRound. by rewrite Hty, Hterms.
Qed.

(** *** The whole table *)

Lemma processRounds_length rs : forall h s h' states,
  processRounds h s rs = Return (h', states) -> length states = length rs.
Proof.
  induction rs as [|r rs IH]; intros h s h' states; simpl.
  - by intros [= <- <-].
  - destruct (processRound h s r) as [[h1 res]|]; [|done]. simpl.
    destruct (processRounds h1 (postRoundState res) rs) as [[h2 states']|] eqn:Hrest; [|done].
    simpl. intros [= <- <-]. simpl. f_equal. by eapply IH.
Qed.

(** *** Exit *)

(** [simulateExit] returns on every state whose pool reference is valid;
    each founder and investor gets its percentage of the exit valuation, each
    investor's multiple is that cash return over the amount invested, and
    the pool is valued at its percentage of the exit valuation. *)
Lemma simulateExit_returns h s (V : num) e :
  h !! state_esop s = Some e ->
  exists sim,
    simulateExit h s V = Return sim /\
    exitValuation sim = V /\
    esopValue sim = mul (div (esop_percentage e) (of_Z 100)) V /\
    Forall2 (fun f fr =>
               founderId fr = fs_id f /\
               fr_finalEquity fr = fs_percentage f /\
               fr_cashReturn fr = mul (div (fs_percentage f) (of_Z 100)) V)
            (state_founders s) (founderReturns sim) /\
    Forall2 (fun i ir =>
               investorId ir = inv_id i /\
               ir_finalEquity ir = inv_percentage i /\
               ir_cashReturn ir = mul (div (inv_percentage i) (of_Z 100)) V /\
               multiple ir = div (ir_cashReturn ir) (investmentAmount i))
            (state_investors s) (investorReturns sim).
Proof.
  intros He. unfold simulateExit. rewrite He. simpl.
  eexists. split; [reflexivity|]. simpl. split_and!; try done.
  - induction (state_founders s); simpl; by constructor.
  - induction (state_investors s); simpl; by constructor.
Qed.

End Generic_facts.

(** ** The number models *)

#[export] Instance float_laws : JsNumberLaws float.
Proof.
  split. intros x Hx. simpl in *. unfold F64.truthy.
  change (F64.of_Z 0) with 0%float in Hx. by rewrite Hx.
Qed.

#[export] Instance exact_laws : JsNumberLaws exact.
Proof.
  split. intros [v o] Hx. unfold strict_eq, truthy in *; simpl in *.
  unfold Ex.eq, Ex.truthy in *; simpl in *.
  destruct o; simpl in *; [|done]. change (inject_Z 0) with 0%Q in Hx. by rewrite Hx.
Qed.

(** In binary64 the literal [0.01] is the quotient the engine's check is
    stated with. *)
Example hundredth_literal : (decimal 1 2 : float) = 0.01%float.
Proof. reflexivity. Qed.

(** Not-a-number is absorbing. *)
Module F64_facts.

Local Open Scope float_scope.

Lemma Prim2SF_nan : Prim2SF nan = S754_nan.
Proof. reflexivity. Qed.

Lemma sub_nan_l x : nan - x = nan.
Proof. apply Prim2SF_inj. rewrite sub_spec, Prim2SF_nan. reflexivity. Qed.

Lemma div_nan_l x : nan / x = nan.
Proof. apply Prim2SF_inj. rewrite div_spec, Prim2SF_nan. reflexivity. Qed.

Lemma div_nan_r x : x / nan = nan.
Proof.
  apply Prim2SF_inj. rewrite div_spec, Prim2SF_nan.
  by destruct (Prim2SF x) as [[]|[]| |[] m e].
Qed.

Lemma add_nan_r x : x + nan = nan.
Proof.
  apply Prim2SF_inj. rewrite add_spec, Prim2SF_nan.
  by destruct (Prim2SF x) as [[]|[]| |[] m e].
Qed.

End F64_facts.

(** ** Exact arithmetic *)

(** *** Sums *)

Section Exact_sums.

Local Open Scope Q_scope.

Context {A : Type}.
Implicit Types (f g : A -> exact) (l : list A).

Lemma fold_add_val f l (a : exact) :
  val (fold_left (fun sum x => add sum (f x)) l a) == val a + sumv f l.
Proof.
  revert a. induction l as [|x l IH]; intros a; simpl.
  - ring.
  - rewrite IH. simpl. ring.
Qed.

Lemma fold_add_ok f l (a : exact) :
  ok (fold_left (fun sum x => add sum (f x)) l a) = ok a && allok f l.
Proof.
  revert a. induction l as [|x l IH]; intros a; simpl.
  - by rewrite andb_true_r.
  - rewrite IH. simpl. by rewrite andb_assoc.
Qed.

Lemma reduce_sum_val f l : val (reduce_sum f l) == sumv f l.
Proof. unfold reduce_sum. rewrite fold_add_val. simpl. ring. Qed.

Lemma reduce_sum_ok f l : ok (reduce_sum f l) = allok f l.
Proof. unfold reduce_sum. by rewrite fold_add_ok. Qed.

Lemma sumv_app f l1 l2 : sumv f (l1 ++ l2) == sumv f l1 + sumv f l2.
Proof. induction l1 as [|x l1 IH]; simpl; [ring|]. rewrite IH. ring. Qed.

Lemma allok_app f l1 l2 : allok f (l1 ++ l2) = allok f l1 && allok f l2.
Proof. apply forallb_app. Qed.

Lemma allok_ext f g l : (forall x, ok (f x) = ok (g x)) -> allok f l = allok g l.
Proof. intros Hfg. induction l as [|x l IH]; simpl; [done|]. by rewrite IH, Hfg. Qed.

(** Percentages of a common total add up to the percentage of the sum. *)
Lemma sumv_percent f l (total : exact) :
  sumv (fun x => percent_of (f x) total) l == sumv f l / val total * 100.
Proof.
  induction l as [|x l IH]; simpl.
  - unfold Qdiv. ring.
  - rewrite IH. unfold Qdiv. change (inject_Z 100) with 100. ring.
Qed.

Lemma allok_percent f l (total : exact) :
  ok total = true -> ~ val total == 0 ->
  allok (fun x => percent_of (f x) total) l = allok f l.
Proof.
  intros Hok Hnz. apply allok_ext. intros x. simpl. rewrite Hok.
  destruct (Qeq_bool (val total) 0) eqn:Hz.
  - apply Qeq_bool_iff in Hz. contradiction.
  - simpl. by rewrite !andb_true_r.
Qed.

End Exact_sums.

Lemma sumv_map {A B} (f : B -> exact) (g : A -> B) (l : list A) :
  sumv f (map g l) = sumv (fun x => f (g x)) l.
Proof. induction l as [|x l IH]; simpl; [done|]. by rewrite IH. Qed.

Lemma allok_map {A B} (f : B -> exact) (g : A -> B) (l : list A) :
  allok f (map g l) = allok (fun x => f (g x)) l.
Proof. induction l as [|x l IH]; simpl; [done|]. by rewrite IH. Qed.

Section Exact_pricing.

Local Open Scope Q_scope.

Lemma positive_spec (x : exact) : positive x = true <-> ok x = true /\ 0 < val x.
Proof.
  unfold positive. rewrite andb_true_iff, negb_true_iff. split; intros [Hok Hv]; split; try done.
  - destruct (Qlt_le_dec 0 (val x)) as [Hlt|Hle]; [done|].
    apply Qle_bool_iff in Hle. congruence.
  - destruct (Qle_bool (val x) 0) eqn:Hle; [|done].
    apply Qle_bool_iff in Hle. exfalso. lra.
Qed.

Lemma nonneg_spec (x : exact) : nonneg x = true <-> ok x = true /\ 0 <= val x.
Proof. unfold nonneg. by rewrite andb_true_iff, Qle_bool_iff. Qed.

Lemma Qeq_bool_pos (q : Q) : 0 < q -> Qeq_bool q 0 = false.
Proof.
  intros Hq. destruct (Qeq_bool q 0) eqn:Hz; [|done].
  apply Qeq_bool_iff in Hz. exfalso. lra.
Qed.

Lemma Qdiv_pos (a b : Q) : 0 < a -> 0 < b -> 0 < a / b.
Proof. intros Ha Hb. apply Qlt_shift_div_l; [done|]. lra. Qed.

Lemma Qdiv_nonneg (a b : Q) : 0 <= a -> 0 < b -> 0 <= a / b.
Proof. intros Ha Hb. apply Qle_shift_div_l; [done|]. lra. Qed.

(** Division of finite numbers by a positive finite number. *)
Lemma div_positive (a b : exact) :
  positive a = true -> positive b = true -> positive (div a b) = true.
Proof.
  rewrite !positive_spec. intros [Ha Hva] [Hb Hvb]. simpl.
  rewrite Ha, Hb, (Qeq_bool_pos _ Hvb). split; [done|]. by apply Qdiv_pos.
Qed.

Lemma div_nonneg (a b : exact) :
  nonneg a = true -> positive b = true -> nonneg (div a b) = true.
Proof.
  rewrite !nonneg_spec, positive_spec. intros [Ha Hva] [Hb Hvb]. simpl.
  rewrite Ha, Hb, (Qeq_bool_pos _ Hvb). split; [done|]. by apply Qdiv_nonneg.
Qed.

(** The price of an ordinary round is positive, and the number of new
    shares is a finite number that is not negative. *)
Lemma priceRound_ordinary (r : FundingRound exact) (total : exact) :
  ordinary_round r = true ->
  positive total = true ->
  exists sp pm po ns,
    priceRound total r = Return (sp, pm, po, ns) /\
    positive sp = true /\ nonneg ns = true.
Proof.
  unfold ordinary_round. intros Hr Ht.
  destruct (esopAdjustment r); [done|].
  apply andb_true_iff in Hr as [HC Hr].
  unfold priceRound. destruct (round_type r).
  - destruct (pricedTerms r) as [terms|]; [|done]. simpl.
    destruct (given (preMoneyValuation terms)) eqn:Hg.
    + eexists _, _, _, _. split; [reflexivity|].
      pose proof (div_positive _ _ Hr Ht). split; [done|]. by apply div_nonneg.
    + eexists _, _, _, _. split; [reflexivity|].
      pose proof (div_positive _ _ Hr Ht). split; [done|]. by apply div_nonneg.
  - destruct (safeTerms r) as [terms|]; [|done]. simpl.
    apply andb_true_iff in Hr as [HV Hd].
    assert (Hg : given (valuationCap terms) = true).
    { destruct (valuationCap terms) as [V|]; [|done]. simpl in *.
      apply positive_spec in HV as [HV1 HV2]. unfold Ex.truthy.
      by rewrite HV1, (Qeq_bool_pos _ HV2). }
    rewrite Hg. simpl.
    pose proof (div_positive _ _ HV Ht) as Hp.
    eexists _, _, _, _. split; [reflexivity|].
    assert (Hprice : positive
              (if given (discount terms)
               then Math_min (div (to_number (valuationCap terms)) total)
                      (mul (div (to_number (valuationCap terms)) total)
                         (sub (of_Z 1) (div (to_number (discount terms)) (of_Z 100))))
               else div (to_number (valuationCap terms)) total) = true).
    { destruct (given (discount terms)); [|done].
      set (p := div (to_number (valuationCap terms)) total) in *.
      apply positive_spec in Hp as [Hp1 Hp2], Hd as [Hd1 Hd2].
      apply positive_spec. simpl in *.
      rewrite Hp1, Hd1. simpl. split; [done|].
      change (inject_Z 100) with 100 in *. change (inject_Z 1) with 1.
      assert (0 < val p * (1 - val (to_number (discount terms)) / 100)).
      { apply Qmult_lt_0_compat; [done|].
        assert (E : 1 - val (to_number (discount terms)) / 100
                    == (100 - val (to_number (discount terms))) / 100) by field.
        rewrite E. by apply Qdiv_pos. }
      by destruct (Qle_bool _ _). }
    split; [done|]. by apply div_nonneg.
Qed.

End Exact_pricing.

Section Exact_invariant.

Local Open Scope Q_scope.

Implicit Types (h : store exact) (s : CapTableState exact) (r : FundingRound exact).

Lemma share_sum_exact h s e :
  h !! state_esop s = Some e ->
  exists x,
    share_sum h s = Some x /\
    ok x = allok fs_shares (state_founders s) && ok (esop_shares e)
           && allok inv_shares (state_investors s) /\
    val x == sumv fs_shares (state_founders s) + val (esop_shares e)
             + sumv inv_shares (state_investors s).
Proof.
  intros He. unfold share_sum. rewrite He. simpl. eexists. split; [reflexivity|].
  simpl. rewrite !reduce_sum_ok, !reduce_sum_val. done.
Qed.






(** One ordinary round: the pool record of the previous state is rewritten
    in place; the state returned is balanced in shares, and every
    percentage, the pool's included, is the holder's share of the new
    total. *)
Lemma processRound_ordinary h s r e :
  h !! state_esop s = Some e ->
  balanced_with (esop_shares e) s ->
  ordinary_round r = true ->
  exists res e',
    processRound h s r = Return (<[state_esop s := e']> h, res) /\
    state_esop (postRoundState res) = state_esop s /\
    esop_shares e' = esop_shares e /\
    balanced_with (esop_shares e) (postRoundState res) /\
    percentages_of_shares (postRoundState res) /\
    ok (esop_percentage e') = true /\
    val (esop_percentage e')
    == val (esop_shares e) / val (totalShares (postRoundState res)) * 100.
Proof.
  intros He (HT & HF & HE & HI & Heq) Hr.
  destruct (priceRound_ordinary r (totalShares s) Hr HT) as (sp & pm & po & ns & Hp & Hsp & Hns).
  assert (Hadj : esopAdjustment r = None).
  { unfold ordinary_round in Hr. by destruct (esopAdjustment r). }
  rewrite (processRound_plain h s r e sp pm po ns Hp Hadj He).
  eexists _, _. split; [reflexivity|]. cbn [postRoundState state_esop esop_shares].
  apply positive_spec in HT as [HT HTpos]. apply nonneg_spec in Hns as [Hns Hnspos].
  set (total' := add (totalShares s) ns).
  assert (Hvt : val total' = val (totalShares s) + val ns) by reflexivity.
  assert (HT' : ok total' = true) by (simpl; by rewrite HT, Hns).
  assert (HT'pos : 0 < val total') by (rewrite Hvt; lra).
  assert (HT'nz : ~ val total' == 0) by lra.
  clearbody total'.
  split_and!; try done.
  - unfold balanced_with. cbn [state_founders state_investors totalShares].
    split_and!.
    + by apply positive_spec.
    + by rewrite allok_map.
    + done.
    + rewrite allok_app, allok_map. apply andb_true_iff. split; [exact HI|].
      simpl. by rewrite Hns.
    + rewrite sumv_app, !sumv_map.
      change (sumv (fun x => inv_shares _) (state_investors s))
        with (sumv inv_shares (state_investors s)).
      change (sumv (fun x => fs_shares _) (state_founders s))
        with (sumv fs_shares (state_founders s)).
      simpl. rewrite Hvt. lra.
  - unfold percentages_of_shares. cbn [state_founders state_investors totalShares].
    rewrite !allok_app, !allok_map, !sumv_app, !sumv_map.
    cbn [fs_percentage inv_percentage fs_shares inv_shares].
    rewrite (allok_percent fs_shares _ total' HT' HT'nz).
    rewrite (allok_percent inv_shares _ total' HT' HT'nz).
    rewrite (sumv_percent fs_shares _ total'), (sumv_percent inv_shares _ total').
    change (sumv (fun x => inv_shares x) (state_investors s))
      with (sumv inv_shares (state_investors s)).
    change (sumv (fun x => fs_shares x) (state_founders s))
      with (sumv fs_shares (state_founders s)).
    split_and!.
    + done.
    + rewrite HI. simpl. by rewrite Hns, HT', (Qeq_bool_pos _ HT'pos).
    + reflexivity.
    + simpl. change (inject_Z 100) with 100. field. exact HT'nz.
  - simpl. by rewrite HE, HT', (Qeq_bool_pos _ HT'pos).
Qed.

End Exact_invariant.

Section Exact_sequence.

Local Open Scope Q_scope.

Implicit Types (h : store exact) (s : CapTableState exact) (r : FundingRound exact).

(** The rounds of a scenario, all ordinary: every snapshot keeps the pool
    reference of the first one and is balanced in shares; the pool record
    keeps its share count and, once a round has been processed, shows the
    pool's share of the last total. *)
Lemma processRounds_ordinary rs : forall h s e h' states,
  processRounds h s rs = Return (h', states) ->
  forallb ordinary_round rs = true ->
  h !! state_esop s = Some e ->
  balanced_with (esop_shares e) s ->
  exists e',
    h' !! state_esop s = Some e' /\
    esop_shares e' = esop_shares e /\
    Forall (fun s' => state_esop s' = state_esop s /\
                      balanced_with (esop_shares e) s' /\
                      percentages_of_shares s') states /\
    match last states with
    | Some s' =>
        ok (esop_percentage e') = true /\
        val (esop_percentage e') == val (esop_shares e) / val (totalShares s') * 100
    | None => h' = h
    end.
Proof.
  induction rs as [|r rs IH]; intros h s e h' states Hrun Hrs He Hbal.
  - simpl in Hrun. injection Hrun as <- <-. exists e. by split_and!.
  - simpl in Hrs. apply andb_true_iff in Hrs as [Hr Hrs].
    destruct (processRound_ordinary h s r e He Hbal Hr)
      as (res & e1 & Hstep & Hloc & Hsh & Hbal1 & Hpct1 & Hok1 & Hval1).
    simpl in Hrun. rewrite Hstep in Hrun. simpl in Hrun.
    destruct (processRounds _ (postRoundState res) rs) as [[h2 states']|] eqn:Hrest;
      [|done].
    simpl in Hrun. injection Hrun as <- <-.
    assert (He1 : <[state_esop s := e1]> h !! state_esop (postRoundState res) = Some e1).
    { rewrite Hloc. apply list_lookup_insert_eq. by eapply lookup_lt_Some. }
    pose proof Hbal1 as Hbal1'. rewrite <- Hsh in Hbal1'.
    destruct (IH _ _ _ _ _ Hrest Hrs He1 Hbal1') as (e2 & He2 & Hsh2 & Hall & Hlast).
    rewrite Hloc in He2. exists e2. split_and!.
    + done.
    + congruence.
    + constructor; [by split_and!|].
      eapply Forall_impl; [exact Hall|]. intros s' (Hl & Hb & Hp). split_and!.
      * congruence.
      * by rewrite <- Hsh.
      * done.
    + rewrite last_cons. destruct (last states') as [s'|].
      * by rewrite <- Hsh.
      * subst h2. rewrite Hloc in He1. by simplify_eq.
Qed.

Lemma founding_guard_exact (x : exact) :
  ok x = true ->
  gt (Math_abs (sub x (of_Z 100))) (decimal 1 2) = false ->
  Qabs (val x - 100) <= 1 / 100.
Proof.
  intros Hok Hgt.
  change (Ex.gt (Ex.abs (Ex.lift2 Qminus x (Ex.fin 100)))
                (Ex.div (Ex.fin 1) (Ex.fin 100)) = false) in Hgt.
  unfold Ex.gt, Ex.abs, Ex.lift2, Ex.div, Ex.fin in Hgt. cbn [ok val] in Hgt.
  rewrite Hok in Hgt. cbn [andb] in Hgt.
  change (Qeq_bool 100 0) with false in Hgt. cbn [andb negb] in Hgt.
  by apply negb_false_iff, Qle_bool_iff in Hgt.
Qed.


End Exact_sequence.




Section Exit_exact.

Local Open Scope Q_scope.

Lemma sumv_share_of {A} (f : A -> exact) (l : list A) (V : exact) :
  sumv (fun x => mul (div (f x) (of_Z 100)) V) l == sumv f l / 100 * val V.
Proof.
  induction l as [|x l IH]; simpl.
  - unfold Qdiv. ring.
  - rewrite IH. change (inject_Z 100) with 100. unfold Qdiv. ring.
Qed.

Lemma allok_share_of {A} (f : A -> exact) (l : list A) (V : exact) :
  ok V = true ->
  allok (fun x => mul (div (f x) (of_Z 100)) V) l = allok f l.
Proof.
  intros HV. apply allok_ext. intros x. simpl. rewrite HV. by rewrite !andb_true_r.
Qed.

(** In exact arithmetic the proceeds add up to the exit valuation times
    the sum of the percentages over 100. *)
Lemma total_proceeds_exact (h : store exact) (s : CapTableState exact) (V : exact) sim p :
  simulateExit h s V = Return sim ->
  percentage_sum h s = Some p ->
  ok V = true ->
  ok (total_proceeds sim) = ok p /\
  val (total_proceeds sim) == val p / 100 * val V.
Proof.
  unfold simulateExit, percentage_sum.
  destruct (h !! state_esop s) as [e|]; [|done]. simpl.
  intros [= <-] [= <-] HV. unfold total_proceeds. simpl.
  rewrite !reduce_sum_ok, !reduce_sum_val, !allok_map, !sumv_map. simpl.
  change (fun x : FounderState exact =>
            Ex.lift2 Qmult (Ex.div (fs_percentage x) (Ex.fin (inject_Z 100))) V)
    with (fun x : FounderState exact => mul (div (fs_percentage x) (of_Z 100)) V).
  change (fun x : InvestorState exact =>
            Ex.lift2 Qmult (Ex.div (inv_percentage x) (Ex.fin (inject_Z 100))) V)
    with (fun x : InvestorState exact => mul (div (inv_percentage x) (of_Z 100)) V).
  rewrite !allok_share_of, !sumv_share_of by done.
  rewrite HV. split.
  - by rewrite !andb_true_r.
  - change (inject_Z 100) with 100. unfold Qdiv. ring.
Qed.

End Exit_exact.

(** ** Failures *)

Section Failures.

Context {num : Type} {N : JsNumber num}.

Implicit Types (h : store num) (s : CapTableState num) (r : FundingRound num).

(** The state [createInitialState] returns refers to the one pool record of
    the store it returns. *)
Lemma createInitialState_valid (fs : list (Founder num)) (ps : list (ESOPPool num)) h0 s0 :
  createInitialState [] fs ps = Return (h0, s0) ->
  is_Some (h0 !! state_esop s0) /\ state_investors s0 = [].
Proof.
  unfold createInitialState. destruct (gt _ _); [done|].
  intros [= <- <-]. simpl. eauto.
Qed.

(** The state [processRound] returns refers to a pool record of the store
    it returns. *)
Lemma processRound_valid h s r h' res :
  processRound h s r = Return (h', res) ->
  is_Some (h' !! state_esop (postRoundState res)).
Proof.
  unfold processRound.
  destruct (priceRound (totalShares s) r) as [[[[sp pm] po] ns]|]; [|done].
  rewrite bind_Return.
  destruct (match esopAdjustment r with
            | Some adj => adjustESOPPool h s (newPoolPercentage adj) (isPreMoney adj) ns
            | None => Return (h, s)
            end) as [[h1 s1]|]; [|done].
  rewrite bind_Return.
  destruct (h1 !! state_esop s1) as [e1|] eqn:He1; [|done].
  cbn [deref]. rewrite bind_Return. intros [= <- <-]. cbn [postRoundState state_esop].
  eexists. apply list_lookup_insert_eq. by eapply lookup_lt_Some.
Qed.

Lemma priceRound_failure total r e :
  priceRound total r = Throw e -> round_failure r e.
Proof.
  unfold priceRound, round_failure. destruct (round_type r).
  - destruct (pricedTerms r) as [terms|]; simpl.
    + by destruct (given (preMoneyValuation terms)).
    + intros [= <-]. by left.
  - destruct (safeTerms r) as [terms|]; simpl.
    + destruct (given (valuationCap terms)) eqn:Hg; simpl; [done|].
      intros [= <-]. right. right. eauto.
    + intros [= <-]. right. by left.
Qed.

Lemma processRound_failure h s r e :
  is_Some (h !! state_esop s) ->
  processRound h s r = Throw e -> round_failure r e.
Proof.
  intros Hs Hrun.
  destruct (priceRound (totalShares s) r) as [[[[sp pm] po] ns]|e'] eqn:Hp.
  - destruct (processRound_returns h s r sp pm po ns Hp Hs) as (h' & post & Hret & _).
    congruence.
  - rewrite (processRound_throws h s r e' Hp) in Hrun. injection Hrun as <-.
    by eapply priceRound_failure.
Qed.

Lemma processRounds_failure rs : forall h s e,
  is_Some (h !! state_esop s) ->
  processRounds h s rs = Throw e ->
  exists r, In r rs /\ round_failure r e.
Proof.
  induction rs as [|r rs IH]; intros h s e Hs; simpl; [done|].
  destruct (processRound h s r) as [[h1 res]|e'] eqn:Hstep; simpl.
  - destruct (processRounds h1 (postRoundState res) rs) as [[h2 states]|e''] eqn:Hrest;
      simpl; [done|].
    intros [= <-].
    destruct (IH _ _ _ (processRound_valid _ _ _ _ _ Hstep) Hrest) as (r' & Hin & Hf).
    exists r'. split; [by right|done].
  - intros [= <-]. exists r. split; [by left|]. by eapply processRound_failure.
Qed.

End Failures.

(** ** Runs of the engine in binary64 *)

Example solo_founding :
  createInitialState [] [founder0 (of_Z 100)] []
  = Return (solo_store, solo_state : CapTableState float).
Proof. vm_compute. reflexivity. Qed.

Example pooled_founding :
  createInitialState [] [founder0 (of_Z 70); founder1 (of_Z 20)] [pool0 (of_Z 10)]
  = Return (pooled_store, pooled_state : CapTableState float).
Proof. vm_compute. reflexivity. Qed.


(** The pre-money top-up of the test suite: shares sum to 12,695,652
    against a total of 12,500,000. *)
Example topup_sums :
  exists h s0 s1,
    calculateCapTable (topup_scenario : Scenario float) = Return (h, [s0; s1]) /\
    share_sum h s1 = Some 12695652%float /\
    totalShares s1 = 12500000%float /\
    shares_balanced h s1 = false /\
    percentages_balanced h s1 = false.
Proof. vm_compute. eexists _, _, _. split; [reflexivity|]. by split_and!. Qed.

(** The founding check tolerates 100.005 percent, and the shares then
    handed out exceed the share base. *)
Example tolerance_founding_unbalanced :
  founding_shares_balanced (tolerance_scenario : Scenario float) = false /\
  founding_shares_balanced (tolerance_scenario : Scenario exact) = false.
Proof. split; vm_compute; reflexivity. Qed.

(** Snapshots share one pool record when no round enlarges the pool: once a
    round has been processed, the first snapshot shows the founding
    percentages of the founders next to the latest pool percentage. *)
Example earlier_snapshot_percentages :
  exists h s0 s1,
    calculateCapTable (pool_then_round_scenario : Scenario exact) = Return (h, [s0; s1]) /\
    percentages_balanced h s0 = false /\
    percentages_balanced h s1 = true.
Proof. vm_compute. eexists _, _, _. split; [reflexivity|]. by split. Qed.

(** * The claims *)

(** ** C1 *)

Section Share_sums.

Context {num : Type} {N : JsNumber num}.

Implicit Types (h : store num) (s : CapTableState num) (r : FundingRound num).





End Share_sums.

Section Exact_events.

Local Open Scope Q_scope.

Implicit Types (h : store exact) (s : CapTableState exact) (r : FundingRound exact).




End Exact_events.




(** ** C2 *)

(** The engine does not do what C2 asks of it: a priced round whose terms
    carry neither valuation is processed without an error. *)
Lemma unpriced_round_is_processed :
  ~ (forall (h : store float) s r terms,
        round_type r = PRICED ->
        pricedTerms r = Some terms ->
        preMoneyValuation terms = None ->
        postMoneyValuation terms = None ->
        exists e, processRound h s r = Throw e).
Proof.
  intros Hall.
  destruct (Hall solo_store solo_state (unpricedRound (of_Z 1000000))
              {| preMoneyValuation := None; postMoneyValuation := None |}
              eq_refl eq_refl eq_refl eq_refl) as [e He].
  vm_compute in He. discriminate.
Qed.

(** C2 (the engine departs from it).  A priced round must carry one of the
    two valuations, and the engine is to fail with a descriptive error when
    it carries neither, as it does for a convertible instrument without a
    cap and for founding percentages that do not sum to 100.  The priced
    branch has no such check: it asserts that the post-money valuation is
    there ([terms.postMoneyValuation!]) and computes with it.  For every
    priced round whose terms carry neither valuation [processRound] raises
    no error and returns a next state whose pre-money valuation, share
    price, new shares and total shares are all NaN; a scenario that passes
    the founding check and consists of one such event makes
    [calculateCapTable] return the founding state followed by that state. *)
Theorem unpriced_round_yields_nan (r : FundingRound float) (terms : PricedTerms float) :
  round_type r = PRICED ->
  pricedTerms r = Some terms ->
  preMoneyValuation terms = None ->
  postMoneyValuation terms = None ->
  (forall (h : store float) s,
      is_Some (h !! state_esop s) ->
      exists h' res,
        processRound h s r = Return (h', res) /\
        preRoundState res = s /\
        postMoney (valuation res) = None /\
        preMoney (valuation res) = nan /\
        sharePrice res = nan /\
        newShares res = nan /\
        totalShares (postRoundState res) = nan) /\
  (forall (sc : Scenario float) h0 s0,
      rounds sc = [r] ->
      createInitialState [] (founders sc) (esopPools sc) = Return (h0, s0) ->
      exists h s1,
        calculateCapTable sc = Return (h, [s0; s1]) /\ totalShares s1 = nan).
Proof.
  intros Hty Hterms Hpre Hpost.
  assert (Hstep : forall (h : store float) s,
             is_Some (h !! state_esop s) ->
             exists h' res,
               processRound h s r = Return (h', res) /\
               preRoundState res = s /\
               postMoney (valuation res) = None /\
               preMoney (valuation res) = nan /\
               sharePrice res = nan /\
               newShares res = nan /\
               totalShares (postRoundState res) = nan).
  { intros h s Hs.
    assert (Hg : given (preMoneyValuation terms) = false) by (by rewrite Hpre).
    pose proof (priceRound_priced_post r terms (totalShares s) Hty Hterms Hg) as Hp.
    cbv zeta in Hp. rewrite Hpost in Hp. simpl in Hp.
    rewrite F64_facts.sub_nan_l, F64_facts.div_nan_l, F64_facts.div_nan_r in Hp.
    destruct (processRound_returns h s r _ _ _ _ Hp Hs) as (h' & post & -> & Htotal & _).
    eexists _, _. split; [reflexivity|]. simpl. split_and!; try done.
    rewrite Htotal. apply F64_facts.add_nan_r. }
  split; [exact Hstep|].
  intros sc h0 s0 Hrounds Hinit. unfold calculateCapTable. rewrite Hinit, Hrounds. simpl.
  destruct (createInitialState_valid _ _ _ _ Hinit) as [Hs0 _].
  destruct (Hstep h0 s0 Hs0) as (h' & res & -> & _ & _ & _ & _ & _ & Htotal).
  simpl. eauto.
Qed.

Lemma unpriced_round_yields_nan_witness :
  (exists h' res,
      processRound solo_store solo_state (unpricedRound (of_Z 1000000) : FundingRound float)
      = Return (h', res) /\
      preRoundState res = solo_state /\
      postMoney (valuation res) = None /\
      preMoney (valuation res) = nan /\
      sharePrice res = nan /\
      newShares res = nan /\
      totalShares (postRoundState res) = nan) /\
  (exists h s1,
      calculateCapTable (unpriced_scenario : Scenario float)
      = Return (h, [solo_state; s1]) /\
      totalShares s1 = nan).
Proof.
  pose proof (unpriced_round_yields_nan (unpricedRound (of_Z 1000000))
                {| preMoneyValuation := None; postMoneyValuation := None |}
                eq_refl eq_refl eq_refl eq_refl) as [Hstep Htable].
  split.
  - apply (Hstep solo_store solo_state). eexists. reflexivity.
  - apply (Htable unpriced_scenario solo_store solo_state); [reflexivity|].
    vm_compute. reflexivity.
Defined.

(** ** C3 *)

(** C3 (the engine departs from it).  [processRound] leaves the previous
    state's total, founders, investors and pool shares alone, but when the
    round triggers no pool enlargement it assigns the new pool percentage to
    the pool record the previous state still refers to.  With founders at 70
    and 20 percent, a 10 percent pool, and a priced round of 1,000,000 at
    4,000,000 pre-money, the previous state reads a pool percentage of 10
    before the call and 8 after it; the first snapshot returned by
    [calculateCapTable] reads 8 as well. *)
Theorem processRound_overwrites_previous_pool :
  let r : FundingRound float := pricedRound (of_Z 1000000) (of_Z 4000000) None in
  exists h1 res,
    processRound pooled_store pooled_state r = Return (h1, res) /\
    preRoundState res = pooled_state /\
    esop_percentage <$> pool_of pooled_store pooled_state = Some 10%float /\
    esop_percentage <$> pool_of h1 (preRoundState res) = Some 8%float /\
    snapshot h1 (preRoundState res) <> snapshot pooled_store pooled_state /\
    exists h s0 s1,
      calculateCapTable (pool_then_round_scenario : Scenario float) = Return (h, [s0; s1]) /\
      map fs_percentage (state_founders s0) = [70%float; 20%float] /\
      esop_percentage <$> pool_of h s0 = Some 8%float.
Proof.
  vm_compute. eexists _, _. split; [reflexivity|]. split_and!; try reflexivity.
  - intros [=].
  - eexists _, _, _. split; [reflexivity|]. by split.
Qed.

(** ** C4 *)

(** C4 (the engine departs from it).  In the test scenario with founders at
    90 and 10 percent and a round raising 2,000,000 at 8,000,000 pre-money
    with a pre-money pool top-up to 15 percent, the post-round pool
    percentage is 12, more than 0.1 away from 15: the top-up adds 1,500,000
    pool shares but leaves [totalShares] at 10,000,000, and the pool
    percentage is then recomputed over 12,500,000.  Both founders'
    percentages do decrease. *)
Theorem topup_pool_percentage :
  exists h s0 s1 pool,
    calculateCapTable (topup_scenario : Scenario float) = Return (h, [s0; s1]) /\
    pool_of h s1 = Some pool /\
    esop_shares pool = 1500000%float /\
    esop_percentage pool = 12%float /\
    gt (Math_abs (sub (esop_percentage pool) (of_Z 15))) (decimal 1 1) = true /\
    totalShares s1 = 12500000%float /\
    map fs_percentage (state_founders s0) = [90%float; 10%float] /\
    map fs_percentage (state_founders s1)
    = [62.608695999999995%float; 6.9565199999999994%float] /\
    Forall2 (fun before after => gt before after = true)
            (map fs_percentage (state_founders s0))
            (map fs_percentage (state_founders s1)).
Proof.
  vm_compute. eexists _, _, _, _. split; [reflexivity|].
  split_and!; try reflexivity. repeat constructor.
Qed.

(** ** C5 *)

(** C5.  A priced round with a pre-money valuation [P] (given, that is, set
    to a truthy number) is priced at [P / T] per share, issues
    [C / sharePrice] new shares and has post-money valuation [P + C]; when
    only the post-money valuation [Q] is given, the pre-money valuation is
    [Q - C] and the same formulas apply.  For a single founder at 100 percent
    and a round raising 1,000,000 at 4,000,000 pre-money, the total becomes
    12,500,000 shares, the founder holds 80 percent and the investor 20. *)
Theorem priced_round_pricing :
  (forall (num : Type) (N : JsNumber num) (h : store num) (s : CapTableState num)
          (r : FundingRound num) (terms : PricedTerms num),
      round_type r = PRICED ->
      pricedTerms r = Some terms ->
      is_Some (h !! state_esop s) ->
      (forall P,
          preMoneyValuation terms = Some P -> truthy P = true ->
          exists h' res,
            processRound h s r = Return (h', res) /\
            sharePrice res = div P (totalShares s) /\
            newShares res = div (capitalRaised r) (sharePrice res) /\
            preMoney (valuation res) = P /\
            postMoney (valuation res) = Some (add P (capitalRaised r)) /\
            totalShares (postRoundState res) = add (totalShares s) (newShares res)) /\
      (forall Q,
          given (preMoneyValuation terms) = false -> postMoneyValuation terms = Some Q ->
          exists h' res,
            processRound h s r = Return (h', res) /\
            preMoney (valuation res) = sub Q (capitalRaised r) /\
            sharePrice res = div (preMoney (valuation res)) (totalShares s) /\
            newShares res = div (capitalRaised r) (sharePrice res) /\
            postMoney (valuation res) = Some Q /\
            totalShares (postRoundState res) = add (totalShares s) (newShares res))) /\
  (exists h s0 s1,
      calculateCapTable (single_priced_scenario : Scenario float) = Return (h, [s0; s1]) /\
      totalShares s1 = 12500000%float /\
      map fs_percentage (state_founders s1) = [80%float] /\
      map inv_percentage (state_investors s1) = [20%float]).
Proof.
  split.
  - intros num N h s r terms Hty Hterms Hs. split.
    + intros P HP Htr. by apply (processRound_priced_pre h s r terms P).
    + intros Q Hg HQ. by apply (processRound_priced_post h s r terms Q).
  - vm_compute. eexists _, _, _. split; [reflexivity|]. by split_and!.
Qed.

Lemma priced_round_pricing_witness :
  (exists h' res,
      processRound solo_store solo_state
        (pricedRound (of_Z 1000000) (of_Z 4000000) None : FundingRound float)
      = Return (h', res) /\
      sharePrice res = div (of_Z 4000000) (totalShares solo_state) /\
      newShares res = div (of_Z 1000000) (sharePrice res) /\
      preMoney (valuation res) = of_Z 4000000 /\
      postMoney (valuation res) = Some (add (of_Z 4000000) (of_Z 1000000)) /\
      totalShares (postRoundState res) = add (totalShares solo_state) (newShares res)) /\
  (exists h' res,
      processRound solo_store solo_state
        (postpricedRound (of_Z 1000000) (of_Z 5000000) : FundingRound float)
      = Return (h', res) /\
      preMoney (valuation res) = sub (of_Z 5000000) (of_Z 1000000) /\
      sharePrice res = div (preMoney (valuation res)) (totalShares solo_state) /\
      newShares res = div (of_Z 1000000) (sharePrice res) /\
      postMoney (valuation res) = Some (of_Z 5000000) /\
      totalShares (postRoundState res) = add (totalShares solo_state) (newShares res)).
Proof.
  split.
  - refine (proj1 (proj1 priced_round_pricing float _ solo_store solo_state
                     (pricedRound (of_Z 1000000) (of_Z 4000000) None) _ _ _ _)
                  (of_Z 4000000) _ _).
    + reflexivity.
    + reflexivity.
    + eexists. reflexivity.
    + reflexivity.
    + vm_compute. reflexivity.
  - refine (proj2 (proj1 priced_round_pricing float _ solo_store solo_state
                     (postpricedRound (of_Z 1000000) (of_Z 5000000)) _ _ _ _)
                  (of_Z 5000000) _ _).
    + reflexivity.
    + reflexivity.
    + eexists. reflexivity.
    + reflexivity.
    + reflexivity.
Defined.

(** ** C6 *)

(** C6.  A convertible instrument with a valuation cap [V] (set to a truthy
    number) is converted at [V / T] per share; when a discount [d] is also
    present the price is [min (V / T) ((V / T) * (1 - d / 100))]; the new
    shares are [C / sharePrice].  For a single founder at 100 percent and an
    instrument raising 250,000 at a 10,000,000 cap with a 20 percent
    discount the price is 0.80 per share and the total becomes 10,312,500
    shares. *)
Theorem convertible_pricing :
  (forall (num : Type) (N : JsNumber num) (h : store num) (s : CapTableState num)
          (r : FundingRound num) (terms : SafeTerms num) (V : num),
      round_type r = SAFE ->
      safeTerms r = Some terms ->
      valuationCap terms = Some V ->
      truthy V = true ->
      is_Some (h !! state_esop s) ->
      exists h' res,
        processRound h s r = Return (h', res) /\
        (given (discount terms) = false -> sharePrice res = div V (totalShares s)) /\
        (forall d, discount terms = Some d -> truthy d = true ->
                   sharePrice res =
                     Math_min (div V (totalShares s))
                              (mul (div V (totalShares s))
                                   (sub (of_Z 1) (div d (of_Z 100))))) /\
        newShares res = div (capitalRaised r) (sharePrice res) /\
        totalShares (postRoundState res) = add (totalShares s) (newShares res)) /\
  (exists h' res,
      processRound solo_store solo_state
        (safeRound (of_Z 250000) (Some (of_Z 10000000)) (Some (of_Z 20)) : FundingRound float)
      = Return (h', res) /\
      div (of_Z 10000000) (totalShares solo_state) = 1%float /\
      sharePrice res = 0.8%float /\
      newShares res = 312500%float /\
      totalShares (postRoundState res) = 10312500%float) /\
  (exists h s0 s1,
      calculateCapTable (safe_discount_scenario : Scenario float) = Return (h, [s0; s1]) /\
      totalShares s1 = 10312500%float).
Proof.
  split_and!.
  - intros num N h s r terms V Hty Hterms HV Htr Hs.
    destruct (processRound_safe h s r terms V Hty Hterms HV Htr Hs)
      as (h' & res & Hrun & Hprice & Hnew & Htotal).
    exists h', res. split_and!; try done.
    + intros Hg. rewrite Hprice. destruct (discount terms) as [d|]; [|done].
      simpl in Hg. by rewrite Hg.
    + intros d Hd Hdt. rewrite Hprice, Hd. by rewrite Hdt.
  - vm_compute. eexists _, _. split; [reflexivity|]. by split_and!.
  - vm_compute. eexists _, _, _. split; [reflexivity|]. done.
Qed.

Lemma convertible_pricing_witness :
  exists h' res,
    processRound solo_store solo_state
      (safeRound (of_Z 250000) (Some (of_Z 10000000)) (Some (of_Z 20)) : FundingRound float)
    = Return (h', res) /\
    (given (Some (of_Z 20 : float)) = false ->
     sharePrice res = div (of_Z 10000000) (totalShares solo_state)) /\
    (forall d, Some (of_Z 20 : float) = Some d -> truthy d = true ->
               sharePrice res =
                 Math_min (div (of_Z 10000000) (totalShares solo_state))
                          (mul (div (of_Z 10000000) (totalShares solo_state))
                               (sub (of_Z 1) (div d (of_Z 100))))) /\
    newShares res = div (of_Z 250000) (sharePrice res) /\
    totalShares (postRoundState res) = add (totalShares solo_state) (newShares res).
Proof.
  refine (proj1 convertible_pricing float _ solo_store solo_state
            (safeRound (of_Z 250000) (Some (of_Z 10000000)) (Some (of_Z 20)))
            {| valuationCap := Some (of_Z 10000000); discount := Some (of_Z 20) |}
            (of_Z 10000000) _ _ _ _ _).
  - reflexivity.
  - reflexivity.
  - reflexivity.
  - vm_compute. reflexivity.
  - eexists. reflexivity.
Defined.

(** ** C7 *)

(** C7 as stated does not hold: the proceeds add up to the exit valuation
    only as far as the percentages add up to 100.  A single founder at
    100.005 percent passes the founding check; at an exit of 100,000,000 the
    founder's cash return exceeds the exit valuation by almost 5,000. *)
Lemma proceeds_exceed_exit_valuation :
  exists h s sim,
    calculateCapTable (tolerance_scenario : Scenario float) = Return (h, [s]) /\
    simulateExit h s (of_Z 100000000) = Return sim /\
    total_proceeds sim = 100004999.99999999%float /\
    gt (sub (total_proceeds sim) (of_Z 100000000)) (of_Z 4999) = true.
Proof. vm_compute. eexists _, _, _. split; [reflexivity|]. by split_and!. Qed.

(** C7, amended.  For every state whose pool record is in the store and
    every exit valuation [V], [simulateExit] returns for each founder and
    each investor a cash return of (percentage / 100) * V, for each investor
    a multiple of that cash return over the capital invested, and a pool
    value of (pool percentage / 100) * V.  In exact arithmetic the cash
    returns and the pool value add up to (sum of the percentages / 100) * V,
    hence to V when the percentages sum to 100. *)
Theorem exit_proceeds :
  (forall (num : Type) (N : JsNumber num) (h : store num) (s : CapTableState num)
          (V : num) (e : EsopState num),
      h !! state_esop s = Some e ->
      exists sim,
        simulateExit h s V = Return sim /\
        exitValuation sim = V /\
        esopValue sim = mul (div (esop_percentage e) (of_Z 100)) V /\
        Forall2 (fun f fr =>
                   founderId fr = fs_id f /\
                   fr_finalEquity fr = fs_percentage f /\
                   fr_cashReturn fr = mul (div (fs_percentage f) (of_Z 100)) V)
                (state_founders s) (founderReturns sim) /\
        Forall2 (fun i ir =>
                   investorId ir = inv_id i /\
                   ir_finalEquity ir = inv_percentage i /\
                   ir_cashReturn ir = mul (div (inv_percentage i) (of_Z 100)) V /\
                   multiple ir = div (ir_cashReturn ir) (investmentAmount i))
                (state_investors s) (investorReturns sim)) /\
  (forall (h : store exact) (s : CapTableState exact) (V : exact) sim p,
      simulateExit h s V = Return sim ->
      percentage_sum h s = Some p ->
      ok p = true ->
      ok V = true ->
      ok (total_proceeds sim) = true /\
      (val (total_proceeds sim) == val p / 100 * val V)%Q /\
      ((val p == 100)%Q -> (val (total_proceeds sim) == val V)%Q)).
Proof.
  split.
  - intros num N h s V e He. by apply simulateExit_returns.
  - intros h s V sim p Hsim Hp Hokp HV.
    destruct (total_proceeds_exact h s V sim p Hsim Hp HV) as [Hok Hval].
    split_and!; [congruence | done |].
    intros H100. rewrite Hval, H100. field.
Qed.

Lemma exit_proceeds_witness :
  (exists sim,
      simulateExit pooled_store (pooled_state : CapTableState float) (of_Z 100000000)
      = Return sim /\
      exitValuation sim = of_Z 100000000 /\
      esopValue sim = mul (div (of_Z 10) (of_Z 100)) (of_Z 100000000) /\
      Forall2 (fun f fr =>
                 founderId fr = fs_id f /\
                 fr_finalEquity fr = fs_percentage f /\
                 fr_cashReturn fr = mul (div (fs_percentage f) (of_Z 100)) (of_Z 100000000))
              (state_founders pooled_state) (founderReturns sim) /\
      Forall2 (fun i ir =>
                 investorId ir = inv_id i /\
                 ir_finalEquity ir = inv_percentage i /\
                 ir_cashReturn ir = mul (div (inv_percentage i) (of_Z 100)) (of_Z 100000000) /\
                 multiple ir = div (ir_cashReturn ir) (investmentAmount i))
              (state_investors pooled_state) (investorReturns sim)) /\
  (exists sim p,
      simulateExit pooled_store (pooled_state : CapTableState exact) (of_Z 100000000)
      = Return sim /\
      percentage_sum pooled_store (pooled_state : CapTableState exact) = Some p /\
      ok (total_proceeds sim) = true /\
      (val (total_proceeds sim) == val p / 100 * val (of_Z 100000000 : exact))%Q /\
      ((val p == 100)%Q -> (val (total_proceeds sim) == val (of_Z 100000000 : exact))%Q)).
Proof.
  split.
  - apply (proj1 exit_proceeds float _ pooled_store pooled_state (of_Z 100000000)
             {| esop_shares := of_Z 1000000; esop_percentage := of_Z 10 |}).
    reflexivity.
  - eexists _, _.
    split; [vm_compute; reflexivity|].
    split; [vm_compute; reflexivity|].
    apply (proj2 exit_proceeds pooled_store pooled_state (of_Z 100000000));
      vm_compute; reflexivity.
Defined.

(** ** C8 *)

(** C8 as stated does not hold: a convertible instrument that carries no
    terms object has no valuation cap, and [processRound] fails on it with
    the runtime's TypeError, raised by the read of [safeTerms.valuationCap],
    not with the error of the claim. *)
Lemma capless_safe_raises_TypeError :
  ~ (forall (h : store float) (s : CapTableState float) (r : FundingRound float),
        round_type r = SAFE ->
        cap_of r = None ->
        processRound h s r =
          Throw (Error "SAFE without cap requires conversion round details")).
Proof.
  intros Hall.
  specialize (Hall solo_store solo_state (bareSafeRound (of_Z 250000)) eq_refl eq_refl).
  vm_compute in Hall. discriminate.
Qed.

(** C8, amended.  A convertible instrument without a valuation cap makes
    [processRound] fail, whatever the discount, the previous state and the
    store, and no next state is produced: with the error "SAFE without cap
    requires conversion round details" when the event carries a terms
    object, and with the runtime's TypeError when it carries none. *)
Theorem safe_without_cap_fails {num : Type} {N : JsNumber num}
    (h : store num) (s : CapTableState num) (r : FundingRound num) :
  round_type r = SAFE ->
  cap_of r = None ->
  processRound h s r =
    Throw (match safeTerms r with
           | Some _ => Error "SAFE without cap requires conversion round details"
           | None => TypeError
           end).
Proof.
  intros Hty Hcap. unfold cap_of in Hcap.
  destruct (safeTerms r) as [terms|] eqn:Hterms.
  - simpl in Hcap. apply (processRound_falsy_cap h s r terms Hty Hterms).
    by rewrite Hcap.
  - by apply safe_round_without_terms.
Qed.

Lemma safe_without_cap_fails_witness :
  processRound solo_store solo_state
    (safeRound (of_Z 250000) None (Some (of_Z 20)) : FundingRound float)
  = Throw (Error "SAFE without cap requires conversion round details") /\
  processRound solo_store solo_state
    (safeRound (of_Z 250000) None None : FundingRound float)
  = Throw (Error "SAFE without cap requires conversion round details") /\
  processRound solo_store solo_state (bareSafeRound (of_Z 250000) : FundingRound float)
  = Throw TypeError.
Proof.
  split_and!.
  - apply (safe_without_cap_fails solo_store solo_state
             (safeRound (of_Z 250000) None (Some (of_Z 20)))); reflexivity.
  - apply (safe_without_cap_fails solo_store solo_state
             (safeRound (of_Z 250000) None None)); reflexivity.
  - apply (safe_without_cap_fails solo_store solo_state
             (bareSafeRound (of_Z 250000))); reflexivity.
Defined.

(** ** C9 *)

(** C9.  [validateScenario] always returns a list of strings.  The list
    holds "At least one founder is required" exactly when the founder list
    is absent or empty; it holds "Total equity must sum to 100%" exactly when
    the founder list is present and the founders' initial equity plus the
    pools' percentages differ from 100 by more than 0.01; and it is empty
    exactly when neither is the case. *)
Theorem validateScenario_diagnostics {num : Type} {N : JsNumber num}
    (sc : PartialScenario num) :
  exists errors,
    validateScenario sc = Return errors /\
    let no_founder := opt_founders sc = None \/ opt_founders sc = Some [] in
    let bad_total :=
      exists fs, opt_founders sc = Some fs /\
                 gt (Math_abs (sub (totalEquity fs sc) (of_Z 100))) (decimal 1 2) = true in
    (In "At least one founder is required" errors <-> no_founder) /\
    (In "Total equity must sum to 100%" errors <-> bad_total) /\
    (errors = [] <-> ~ no_founder /\ ~ bad_total).
Proof.
  unfold validateScenario. eexists. split; [reflexivity|].
  destruct (opt_founders sc) as [fs|]; cbv zeta.
  - fold (totalEquity fs sc).
    assert (Hb : (exists fs0, Some fs = Some fs0 /\
                    gt (Math_abs (sub (totalEquity fs0 sc) (of_Z 100))) (decimal 1 2) = true)
                 <-> gt (Math_abs (sub (totalEquity fs sc) (of_Z 100))) (decimal 1 2) = true).
    { split; [intros (fs0 & [= <-] & Hgt); exact Hgt | intros Hgt; eauto]. }
    rewrite Hb. clear Hb.
    destruct (gt _ _); destruct fs as [|f fs]; simpl;
      split_and!; (split; [intros Hin | intros Hc]);
      repeat match goal with
             | H : _ \/ _ |- _ => destruct H
             | H : _ /\ _ |- _ => destruct H
             | H : False |- _ => destruct H
             end;
      try discriminate; try tauto;
      try (split; intros Hc; repeat destruct Hc as [Hc|Hc]; discriminate).
  - simpl. split_and!; split; try tauto.
    + intros [Hin|[]]; discriminate.
    + intros (fs & Hfs & _); discriminate.
    + discriminate.
Qed.

(** ** C10 *)



(** * Further properties *)

(** X1.  What [processRound] leaves alone.  The result carries the previous
    state as it was passed (its total, founders and investors are the
    state's own fields); every pool record of the store keeps its share
    count, and no record other than the one the returned state refers to is
    changed.  The previous state's pool percentage is therefore unchanged
    whenever the round gives the returned state a pool record of its own. *)
Theorem processRound_preserves {num : Type} {N : JsNumber num}
    (h : store num) (s : CapTableState num) (r : FundingRound num) h' res :
  processRound h s r = Return (h', res) ->
  preRoundState res = s /\
  (forall l e, h !! l = Some e ->
     exists e', h' !! l = Some e' /\ esop_shares e' = esop_shares e /\
                (l <> state_esop (postRoundState res) -> e' = e)) /\
  (state_esop (postRoundState res) <> state_esop s ->
   forall e, pool_of h s = Some e -> pool_of h' s = Some e).
Proof.
  intros Hrun. destruct (processRound_frame h s r h' res Hrun) as [Hpre Hcells].
  split_and!; try done.
  intros Hne e He. destruct (Hcells _ _ He) as (e' & He' & _ & Hsame).
  unfold pool_of. rewrite He'. f_equal. apply Hsame. congruence.
Qed.

Lemma processRound_preserves_witness :
  exists h' res,
    processRound pooled_store pooled_state
      (postmoney_topup_round (of_Z 15) : FundingRound float) = Return (h', res) /\
    preRoundState res = pooled_state /\
    (forall l e, pooled_store !! l = Some e ->
       exists e', h' !! l = Some e' /\ esop_shares e' = esop_shares e /\
                  (l <> state_esop (postRoundState res) -> e' = e)) /\
    (state_esop (postRoundState res) <> state_esop pooled_state ->
     forall e, pool_of pooled_store pooled_state = Some e ->
               pool_of h' pooled_state = Some e).
Proof.
  eexists _, _. split; [vm_compute; reflexivity|].
  apply (processRound_preserves (pooled_store : store float) pooled_state
           (postmoney_topup_round (of_Z 15))).
  vm_compute. reflexivity.
Defined.

(** X2.  When [calculateCapTable] returns, it returns the founding state
    followed by one state per financing event. *)
Theorem one_state_per_event {num : Type} {N : JsNumber num}
    (sc : Scenario num) h states :
  calculateCapTable sc = Return (h, states) ->
  length states = S (length (rounds sc)) /\
  exists h0 s0,
    createInitialState [] (founders sc) (esopPools sc) = Return (h0, s0) /\
    head states = Some s0.
Proof.
  unfold calculateCapTable.
  destruct (createInitialState [] (founders sc) (esopPools sc)) as [[h0 s0]|]; [|done].
  simpl.
  destruct (processRounds h0 s0 (rounds sc)) as [[h1 states']|] eqn:Hrest; [|done].
  simpl. intros [= <- <-]. split.
  - simpl. f_equal. by eapply processRounds_length.
  - eauto.
Qed.

Lemma one_state_per_event_witness :
  exists h states,
    calculateCapTable (two_round_scenario : Scenario float) = Return (h, states) /\
    length states = 3%nat /\
    exists h0 s0,
      createInitialState [] (founders (two_round_scenario : Scenario float))
                         (esopPools (two_round_scenario : Scenario float))
      = Return (h0, s0) /\
      head states = Some s0.
Proof.
  eexists ?[h], _. split; [vm_compute; reflexivity|].
  eapply (one_state_per_event (two_round_scenario : Scenario float)).
  vm_compute. reflexivity.
Defined.

(** X3.  The failures of [calculateCapTable]: the founding check, with the
    error "Initial equity must sum to 100%" when the founders' equity plus
    the pools' percentages differ from 100 by more than 0.01; or a financing
    event that lacks the terms object of its type (a TypeError) or is a
    convertible instrument without a cap. *)
Theorem calculateCapTable_failures {num : Type} {N : JsNumber num}
    (sc : Scenario num) (e : JsError) :
  calculateCapTable sc = Throw e ->
  (e = Error "Initial equity must sum to 100%" /\
   gt (Math_abs (sub (add (reduce_sum initialEquity (founders sc))
                          (reduce_sum pool_percentage (esopPools sc)))
                     (of_Z 100))) (decimal 1 2) = true) \/
  (exists r, In r (rounds sc) /\ round_failure r e).
Proof.
  unfold calculateCapTable.
  destruct (createInitialState [] (founders sc) (esopPools sc)) as [[h0 s0]|e0] eqn:Hinit.
  - simpl.
    destruct (processRounds h0 s0 (rounds sc)) as [[h1 states']|e1] eqn:Hrest; [done|].
    simpl. intros [= <-]. right.
    destruct (createInitialState_valid _ _ _ _ Hinit) as [Hs0 _].
    by eapply processRounds_failure.
  - simpl. intros [= <-]. left. unfold createInitialState in Hinit.
    destruct (gt _ _); [|done]. by injection Hinit as <-.
Qed.

Lemma calculateCapTable_failures_witness :
  let sc : Scenario float :=
    {| founders := [founder0 (of_Z 60); founder1 (of_Z 50)]; rounds := [];
       esopPools := [] |} in
  (Error "Initial equity must sum to 100%" = Error "Initial equity must sum to 100%" /\
   gt (Math_abs (sub (add (reduce_sum initialEquity (founders sc))
                          (reduce_sum pool_percentage (esopPools sc)))
                     (of_Z 100))) (decimal 1 2) = true) \/
  (exists r, In r (rounds sc) /\
             round_failure r (Error "Initial equity must sum to 100%")).
Proof.
  intros sc. apply (calculateCapTable_failures sc). vm_compute. reflexivity.
Defined.



(** The founding and convertible-instrument fixtures of the test suite, in
    binary64.  Two founders at 60 and 40 percent hold 6,000,000 and 4,000,000
    of 10,000,000 shares.  Founders at 70 and 20 percent with a 10 percent
    pool keep their percentages next to a pool of 1,000,000 shares.  A
    convertible instrument raising 500,000 at a 5,000,000 cap brings the
    total to 11,000,000 shares, the founder to 90.9 percent and the investor
    to 9.1 percent, each within 0.05. *)
Example test_suite_fixtures :
  (exists h s0,
      calculateCapTable (two_founder_scenario : Scenario float) = Return (h, [s0]) /\
      totalShares s0 = 10000000%float /\
      map fs_shares (state_founders s0) = [6000000%float; 4000000%float] /\
      map fs_percentage (state_founders s0) = [60%float; 40%float]) /\
  (exists h0 s0 pool,
      createInitialState [] [founder0 (of_Z 70); founder1 (of_Z 20)] [pool0 (of_Z 10)]
      = Return (h0, s0) /\
      pool_of h0 s0 = Some pool /\
      esop_shares pool = 1000000%float /\
      esop_percentage pool = 10%float /\
      map fs_percentage (state_founders s0) = [70%float; 20%float]) /\
  (exists h s0 s1 founder investor,
      calculateCapTable (safe_cap_scenario : Scenario float) = Return (h, [s0; s1]) /\
      totalShares s1 = 11000000%float /\
      state_founders s1 = [founder] /\
      state_investors s1 = [investor] /\
      inv_shares investor = 1000000%float /\
      gt (decimal 5 2) (Math_abs (sub (fs_percentage founder) (decimal 909 1))) = true /\
      gt (decimal 5 2) (Math_abs (sub (inv_percentage investor) (decimal 91 1))) = true).
Proof.
  split_and!; vm_compute.
  - eexists _, _. split; [reflexivity|]. by split_and!.
  - eexists _, _, _. split; [reflexivity|]. by split_and!.
  - eexists _, _, _, _, _. split; [reflexivity|]. by split_and!.
Qed.

(** ** Which scenarios compute *)

Section Success.

Context {num : Type} {N : JsNumber num}.

Implicit Types (h : store num) (s : CapTableState num) (r : FundingRound num).

Lemma priceRound_well_formed total r :
  well_formed_round r = true <-> exists x, priceRound total r = Return x.
Proof.
  unfold well_formed_round, priceRound. destruct (round_type r).
  - destruct (pricedTerms r) as [terms|]; simpl.
    + split; [intros _|done]. destruct (given (preMoneyValuation terms)); eauto.
    + split; [done|]. by intros [x Hx].
  - destruct (safeTerms r) as [terms|]; simpl.
    + destruct (given (valuationCap terms)); simpl.
      * split; [intros _|done]. eauto.
      * split; [done|]. by intros [x Hx].
    + split; [done|]. by intros [x Hx].
Qed.

Lemma processRound_well_formed h s r :
  is_Some (h !! state_esop s) ->
  well_formed_round r = true <-> exists h' res, processRound h s r = Return (h', res).
Proof.
  intros Hs. rewrite (priceRound_well_formed (totalShares s)). split.
  - intros [[[[sp pm] po] ns] Hp].
    destruct (processRound_returns h s r sp pm po ns Hp Hs) as (h' & post & -> & _). eauto.
  - intros (h' & res & Hrun).
    destruct (priceRound (totalShares s) r) as [x|e] eqn:Hp; [eauto|].
    rewrite (processRound_throws h s r e Hp) in Hrun. done.
Qed.

Lemma processRounds_well_formed rs : forall h s,
  is_Some (h !! state_esop s) ->
  forallb well_formed_round rs = true <->
  exists h' states, processRounds h s rs = Return (h', states).
Proof.
  induction rs as [|r rs IH]; intros h s Hs; simpl.
  - split; eauto.
  - rewrite andb_true_iff, (processRound_well_formed h s r Hs). split.
    + intros [(h1 & res & Hstep) Hrs]. rewrite Hstep. simpl.
      apply (IH h1 (postRoundState res)) in Hrs as (h2 & states & ->);
        [|by eapply processRound_valid].
      simpl. eauto.
    + intros (h' & states & Hrun).
      destruct (processRound h s r) as [[h1 res]|] eqn:Hstep; [|done]. simpl in Hrun.
      destruct (processRounds h1 (postRoundState res) rs) as [[h2 states']|] eqn:Hrest;
        [|done].
      split; [eauto|]. apply (IH h1 (postRoundState res)); [|eauto].
      by eapply processRound_valid.
Qed.

Lemma validateScenario_complete (sc : Scenario num) :
  validateScenario (as_partial sc) =
    Return ((if (length (founders sc) =? 0)%nat
             then ["At least one founder is required"] else []) ++
            (if gt (Math_abs (sub (add (reduce_sum initialEquity (founders sc))
                                       (reduce_sum pool_percentage (esopPools sc)))
                                  (of_Z 100))) (decimal 1 2)
             then ["Total equity must sum to 100%"] else [])).
Proof.
  unfold validateScenario, as_partial. cbn [opt_founders opt_esopPools default].
  destruct (length (founders sc) =? 0)%nat; by destruct (gt _ _).
Qed.

End Success.

(** X5.  Which scenarios compute.  [calculateCapTable] returns exactly when
    [validateScenario], given the scenario, does not report "Total equity
    must sum to 100%", and every financing event carries the terms object of
    its type and, for a convertible instrument, a cap that is given. *)
Theorem calculateCapTable_returns_iff {num : Type} {N : JsNumber num} (sc : Scenario num) :
  (exists h states, calculateCapTable sc = Return (h, states)) <->
  (exists errors,
      validateScenario (as_partial sc) = Return errors /\
      ~ In "Total equity must sum to 100%" errors) /\
  forallb well_formed_round (rounds sc) = true.
Proof.
  rewrite validateScenario_complete. unfold calculateCapTable, createInitialState.
  destruct (gt _ _) eqn:Hgt.
  - split.
    + by intros (h & states & Hrun).
    + intros [(errors & [= <-] & Hnot) _]. exfalso. apply Hnot.
      apply in_or_app. right. by left.
  - cbn [alloc app length]. rewrite bind_Return.
    match goal with
    | |- context [processRounds ?h0 ?s0 _] =>
        pose proof (processRounds_well_formed (rounds sc) h0 s0) as Hiff
    end.
    rewrite Hiff by (simpl; eauto). clear Hiff. split.
    + intros (h & states & Hrun).
      destruct (processRounds _ _ (rounds sc)) as [[h1 states']|] eqn:Hrest; [|done].
      split; [|eauto]. eexists. split; [reflexivity|].
      intros Hin. apply in_app_or in Hin as [Hin|[]].
      destruct (length (founders sc) =? 0)%nat; [|done].
      by destruct Hin as [Hin|[]].
    + intros [_ (h1 & states & ->)]. simpl. eauto.
Qed.


(** ** Holders across a round *)

Section Holders.

Context {num : Type} {N : JsNumber num}.

Implicit Types (h : store num) (s : CapTableState num) (r : FundingRound num).

(** The pool step keeps the founders' identities and order, and their
    share counts unless it enlarges the pool before the money. *)
Lemma adjustESOPPool_founders h s target isPre ns h' s' :
  adjustESOPPool h s target isPre ns = Return (h', s') ->
  map identity (state_founders s') = map identity (state_founders s) /\
  state_investors s' = state_investors s /\
  totalShares s' = totalShares s /\
  (isPre = false -> state_founders s' = state_founders s).
Proof.
  unfold adjustESOPPool. destruct (h !! state_esop s) as [e|]; [|done]. simpl.
  destruct (le target _).
  - by intros [= <- <-].
  - destruct isPre; simpl; intros [= <- <-]; simpl; split_and!; try done.
    rewrite map_map. by apply map_ext.
Qed.

(** The state on which the round's new shares are issued. *)
Lemma processRound_shape h s r h' res :
  processRound h s r = Return (h', res) ->
  exists s1,
    map identity (state_founders s1) = map identity (state_founders s) /\
    state_investors s1 = state_investors s /\
    totalShares s1 = totalShares s /\
    ((forall adj, esopAdjustment r = Some adj -> isPreMoney adj = false) ->
     state_founders s1 = state_founders s) /\
    let total' := add (totalShares s) (newShares res) in
    totalShares (postRoundState res) = total' /\
    state_founders (postRoundState res) =
      map (fun f => {| fs_id := fs_id f; fs_name := fs_name f; fs_shares := fs_shares f;
                       fs_percentage := percent_of (fs_shares f) total' |})
          (state_founders s1) /\
    state_investors (postRoundState res) =
      map (fun i => {| inv_id := inv_id i; inv_name := inv_name i;
                       inv_shares := inv_shares i;
                       inv_percentage := percent_of (inv_shares i) total';
                       investmentAmount := investmentAmount i |})
          (state_investors s) ++ [new_investor r (newShares res) total'].
Proof.
  unfold processRound.
  destruct (priceRound (totalShares s) r) as [[[[sp pm] po] ns]|]; [|done].
  rewrite bind_Return.
  destruct (match esopAdjustment r with
            | Some adj => adjustESOPPool h s (newPoolPercentage adj) (isPreMoney adj) ns
            | None => Return (h, s)
            end) as [[h1 s1]|] eqn:Hadj; [|done].
  rewrite bind_Return.
  destruct (h1 !! state_esop s1) as [e1|]; [|done].
  cbn [deref]. rewrite bind_Return. intros [= <- <-].
  cbn [postRoundState newShares totalShares state_founders state_investors].
  assert (Hs1 : map identity (state_founders s1) = map identity (state_founders s) /\
                state_investors s1 = state_investors s /\
                totalShares s1 = totalShares s /\
                ((forall adj, esopAdjustment r = Some adj -> isPreMoney adj = false) ->
                 state_founders s1 = state_founders s)).
  { destruct (esopAdjustment r) as [adj|].
    - destruct (adjustESOPPool_founders _ _ _ _ _ _ _ Hadj) as (H1 & H2 & H3 & H4).
      split_and!; try done. intros Hpost. apply H4. by apply Hpost.
    - by injection Hadj as <- <-. }
  destruct Hs1 as (H1 & H2 & H3 & H4).
  exists s1. rewrite H2, H3. by split_and!.
Qed.

End Holders.

(** X6.  Holders across a round.  [processRound] keeps every founder, in
    order, under the same id and name, and every earlier investor, in order,
    with the same id, name, share count and amount invested; it appends one
    investor, named after the round, who holds the round's new shares for
    the capital raised.  No two holders are ever merged, and only a pool
    top-up before the money changes a founder's share count. *)
Theorem holders_carried_over {num : Type} {N : JsNumber num}
    (h : store num) (s : CapTableState num) (r : FundingRound num) h' res :
  processRound h s r = Return (h', res) ->
  map identity (state_founders (postRoundState res)) = map identity (state_founders s) /\
  map holding (state_investors (postRoundState res)) =
    map holding (state_investors s) ++
    [(String.append "investor-" (round_id r), String.append (round_name r) " Investor",
      newShares res, capitalRaised r)] /\
  ((forall adj, esopAdjustment r = Some adj -> isPreMoney adj = false) ->
   map fs_shares (state_founders (postRoundState res)) = map fs_shares (state_founders s)).
Proof.
  intros Hrun.
  destruct (processRound_shape h s r h' res Hrun) as (s1 & H1 & H2 & H3 & H4 & H5 & H6 & H7).
  cbv zeta in *. rewrite H6, H7. split_and!.
  - rewrite <- H1, map_map. by apply map_ext.
  - rewrite map_app, map_map. by f_equal.
  - intros Hpost. rewrite <- (H4 Hpost), map_map. by apply map_ext.
Qed.

Lemma holders_carried_over_witness :
  exists h' res,
    processRound pooled_store pooled_state
      (pricedRound (of_Z 1000000) (of_Z 4000000) None : FundingRound float)
    = Return (h', res) /\
    map identity (state_founders (postRoundState res))
    = [("founder-0", "Founder 1"); ("founder-1", "Founder 2")] /\
    map holding (state_investors (postRoundState res))
    = [("investor-round-0", "Round 1 Investor", 2500000%float, 1000000%float)] /\
    map fs_shares (state_founders (postRoundState res)) = [7000000%float; 2000000%float].
Proof.
  eexists _, _. split; [vm_compute; reflexivity|].
  edestruct (holders_carried_over (pooled_store : store float) pooled_state
               (pricedRound (of_Z 1000000) (of_Z 4000000) None)) as (H1 & H2 & H3);
    [vm_compute; reflexivity|].
  split; [exact H1|]. split; [exact H2|]. apply H3. by intros adj [=].
Defined.

(** ** Holders across the table *)

Section Table_holders.

Context {num : Type} {N : JsNumber num}.

Implicit Types (h : store num) (s : CapTableState num) (r : FundingRound num).

Lemma processRound_backing h s r h' res :
  processRound h s r = Return (h', res) ->
  map identity (state_founders (postRoundState res)) = map identity (state_founders s) /\
  map backing (state_investors (postRoundState res)) =
    map backing (state_investors s) ++ [backer r].
Proof.
  intros Hrun.
  destruct (processRound_shape h s r h' res Hrun) as (s1 & H1 & H2 & H3 & H4 & H5 & H6 & H7).
  cbv zeta in *. rewrite H6, H7. split.
  - rewrite <- H1, map_map. by apply map_ext.
  - rewrite map_app, map_map. by f_equal.
Qed.

Lemma processRounds_holders rs : forall h s h' states,
  processRounds h s rs = Return (h', states) ->
  forall k s', states !! k = Some s' ->
    map identity (state_founders s') = map identity (state_founders s) /\
    map backing (state_investors s') =
      map backing (state_investors s) ++ map backer (take (S k) rs).
Proof.
  induction rs as [|r rs IH]; intros h s h' states; simpl.
  - by intros [= <- <-] k s'.
  - destruct (processRound h s r) as [[h1 res]|] eqn:Hstep; [|done]. simpl.
    destruct (processRounds h1 (postRoundState res) rs) as [[h2 states']|] eqn:Hrest; [|done].
    simpl. intros [= <- <-] k s' Hk.
    destruct (processRound_backing _ _ _ _ _ Hstep) as [Hf Hi].
    destruct k as [|k]; simpl in Hk.
    + injection Hk as <-. by split.
    + destruct (IH _ _ _ _ Hrest k s' Hk) as [Hf' Hi']. split; [congruence|].
      rewrite Hi', Hi, <- app_assoc. done.
Qed.

End Table_holders.

(** X7.  Who is on the table.  In the sequence [calculateCapTable] returns,
    every state lists the scenario's founders, in order, under their ids and
    names, and the state at position [k] lists one investor for each of the
    first [k] financing events, in order, named after the event and with the
    capital the event raised as the amount invested. *)
Theorem snapshots_list_holders {num : Type} {N : JsNumber num}
    (sc : Scenario num) h states k s :
  calculateCapTable sc = Return (h, states) ->
  states !! k = Some s ->
  map identity (state_founders s) = map (fun f => (founder_id f, founder_name f)) (founders sc) /\
  map backing (state_investors s) = map backer (take k (rounds sc)).
Proof.
  unfold calculateCapTable, createInitialState. destruct (gt _ _); [done|].
  cbn [alloc]. rewrite bind_Return.
  match goal with
  | |- context [processRounds ?h0 ?s0 _] =>
      destruct (processRounds h0 s0 (rounds sc)) as [[h1 states']|] eqn:Hrest; [|done]
  end.
  simpl. intros [= <- <-] Hk. destruct k as [|k]; simpl in Hk.
  - injection Hk as <-. simpl. rewrite map_map. by split.
  - destruct (processRounds_holders _ _ _ _ _ Hrest k s Hk) as [Hf Hi].
    simpl in Hf, Hi. rewrite Hf, Hi, map_map. by split.
Qed.

Lemma snapshots_list_holders_witness :
  exists h states s,
    calculateCapTable (two_round_scenario : Scenario float) = Return (h, states) /\
    states !! 2%nat = Some s /\
    map identity (state_founders s)
    = [("founder-0", "Founder 1"); ("founder-1", "Founder 2")] /\
    map backing (state_investors s)
    = [("investor-round-0", "Round 1 Investor", 1000000%float);
       ("investor-round-1", "Round 2 Investor", 250000%float)].
Proof.
  eexists _, _, _. split; [vm_compute; reflexivity|]. split; [reflexivity|].
  pose proof (fun h states =>
                snapshots_list_holders (two_round_scenario : Scenario float) h states 2%nat)
    as Hthm.
  edestruct Hthm as [Hf Hi]; [vm_compute; reflexivity | reflexivity |].
  vm_compute in Hf, Hi. vm_compute. by split.
Defined.

(** X8.  The engine does not ask for a founder.  A scenario without
    founders that [calculateCapTable] accepts -- its pools then make up the
    100 percent -- yields states without founders, while [validateScenario]
    reports "At least one founder is required" and nothing else. *)
Theorem founders_not_required {num : Type} {N : JsNumber num} (sc : Scenario num) h states :
  founders sc = [] ->
  calculateCapTable sc = Return (h, states) ->
  validateScenario (as_partial sc) = Return ["At least one founder is required"] /\
  Forall (fun s => state_founders s = []) states.
Proof.
  intros Hnone Hrun. rewrite validateScenario_complete. split.
  - unfold calculateCapTable, createInitialState in Hrun.
    destruct (gt _ _); [done|]. by rewrite Hnone.
  - apply Forall_lookup. intros k s Hk.
    unfold calculateCapTable, createInitialState in Hrun. destruct (gt _ _); [done|].
    cbn [alloc] in Hrun. rewrite bind_Return in Hrun.
    match type of Hrun with
    | context [processRounds ?h0 ?s0 _] =>
        destruct (processRounds h0 s0 (rounds sc)) as [[h1 states']|] eqn:Hrest; [|done]
    end.
    simpl in Hrun. injection Hrun as <- <-. rewrite Hnone in *.
    destruct k as [|k]; simpl in Hk.
    + by injection Hk as <-.
    + destruct (processRounds_holders _ _ _ _ _ Hrest k s Hk) as [Hf _].
      simpl in Hf. by destruct (state_founders s).
Qed.

Lemma founders_not_required_witness :
  let sc : Scenario float :=
    {| founders := [];
       rounds := [pricedRound (of_Z 1000000) (of_Z 4000000) None];
       esopPools := [pool0 (of_Z 100)] |} in
  exists h states,
    calculateCapTable sc = Return (h, states) /\
    length states = 2%nat /\
    validateScenario (as_partial sc) = Return ["At least one founder is required"] /\
    Forall (fun s => state_founders s = []) states.
Proof.
  intros sc. eexists _, _. split; [vm_compute; reflexivity|]. split; [reflexivity|].
  eapply (founders_not_required sc); [reflexivity | vm_compute; reflexivity].
Defined.

(** ** Pool directives that change nothing; later events *)

Section Composition.

Context {num : Type} {N : JsNumber num}.

Implicit Types (h : store num) (s : CapTableState num) (r : FundingRound num).

(** The run over a list of events is the run over its first part followed,
    from the state reached, by the run over the rest. *)
Lemma processRounds_app rs1 rs2 : forall h s,
  processRounds h s (rs1 ++ rs2) =
    '(h1, states1) ← processRounds h s rs1;
    '(h2, states2) ← processRounds h1 (default s (last states1)) rs2;
    Return (h2, states1 ++ states2).
Proof.
  induction rs1 as [|r rs1 IH]; intros h s; simpl.
  - by destruct (processRounds h s rs2) as [[h2 states2]|].
  - destruct (processRound h s r) as [[h1 res]|]; [|done]. simpl.
    rewrite IH.
    destruct (processRounds h1 (postRoundState res) rs1) as [[h2 states1]|]; [|done].
    simpl. rewrite last_cons.
    replace (default s (match last states1 with
                        | Some y => Some y
                        | None => Some (postRoundState res)
                        end))
      with (default (postRoundState res) (last states1))
      by (by destruct (last states1)).
    by destruct (processRounds h2 _ rs2) as [[h3 states2]|].
Qed.

End Composition.

(** X9.  A pool directive whose target does not exceed the pool's present
    share of the total -- its share count over the total shares, not the
    percentage its record shows -- changes nothing: the round is processed
    as if it carried no directive. *)
Theorem topup_below_pool_is_ignored {num : Type} {N : JsNumber num}
    (h : store num) (s : CapTableState num) (r : FundingRound num)
    (adj : EsopAdjustment num) (e : EsopState num) :
  esopAdjustment r = Some adj ->
  h !! state_esop s = Some e ->
  le (newPoolPercentage adj) (percent_of (esop_shares e) (totalShares s)) = true ->
  processRound h s r = processRound h s (without_adjustment r).
Proof.
  intros Hadj He Hle. unfold processRound.
  change (priceRound (totalShares s) (without_adjustment r))
    with (priceRound (totalShares s) r).
  destruct (priceRound (totalShares s) r) as [[[[sp pm] po] ns]|]; [|done].
  rewrite !bind_Return, Hadj. cbn [esopAdjustment without_adjustment].
  unfold adjustESOPPool. rewrite He. cbn [deref]. by rewrite bind_Return, Hle.
Qed.

Lemma topup_below_pool_is_ignored_witness :
  let r : FundingRound float :=
    pricedRound (of_Z 1000000) (of_Z 4000000)
      (Some {| newPoolPercentage := of_Z 5; isPreMoney := true |}) in
  processRound pooled_store pooled_state r
  = processRound pooled_store pooled_state (without_adjustment r).
Proof.
  intros r.
  apply (topup_below_pool_is_ignored (pooled_store : store float) pooled_state r
           {| newPoolPercentage := of_Z 5; isPreMoney := true |}
           {| esop_shares := of_Z 1000000; esop_percentage := of_Z 10 |});
    reflexivity.
Defined.

(** X10.  Later events do not reach back.  When a scenario is extended by
    further financing events and still computes, the shorter scenario
    computes as well and its states -- totals, founders, investors and pool
    references -- are the first states of the longer run.  (The pool record
    a state refers to is shared and can differ: see C3.) *)
Theorem earlier_states_unaffected {num : Type} {N : JsNumber num}
    (sc sc' : Scenario num) (more : list (FundingRound num)) h' states' :
  founders sc' = founders sc ->
  esopPools sc' = esopPools sc ->
  rounds sc' = rounds sc ++ more ->
  calculateCapTable sc' = Return (h', states') ->
  exists h states,
    calculateCapTable sc = Return (h, states) /\
    take (S (length (rounds sc))) states' = states.
Proof.
  intros Hf Hp Hr. unfold calculateCapTable. rewrite Hf, Hp, Hr.
  destruct (createInitialState [] (founders sc) (esopPools sc)) as [[h0 s0]|]; [|done].
  simpl. rewrite processRounds_app.
  destruct (processRounds h0 s0 (rounds sc)) as [[h1 states1]|] eqn:Hrun1; [|done].
  simpl.
  destruct (processRounds h1 _ more) as [[h2 states2]|]; [|done].
  simpl. intros [= <- <-]. eexists _, _. split; [reflexivity|].
  simpl. f_equal. rewrite <- (processRounds_length _ _ _ _ _ Hrun1).
  by rewrite take_app_length.
Qed.

Lemma earlier_states_unaffected_witness :
  exists h states,
    calculateCapTable (pool_then_round_scenario : Scenario float) = Return (h, states) /\
    take 2 (match calculateCapTable (two_round_scenario : Scenario float) with
            | Return (_, states') => states'
            | Throw _ => []
            end) = states.
Proof.
  edestruct (earlier_states_unaffected
               (pool_then_round_scenario : Scenario float) two_round_scenario)
    as (h & states & Hrun & Htake);
    [reflexivity | reflexivity | reflexivity | vm_compute; reflexivity |].
  exists h, states. split; [exact Hrun|]. rewrite <- Htake. vm_compute. reflexivity.
Defined.

(** ** Pricing and dilution in exact arithmetic *)

Section Exact_round.

Local Open Scope Q_scope.

Implicit Types (h : store exact) (s : CapTableState exact) (r : FundingRound exact).

Lemma positive_mul (a b : exact) :
  positive a = true -> positive b = true -> positive (mul a b) = true.
Proof.
  rewrite !positive_spec. intros [Ha Hva] [Hb Hvb]. simpl. rewrite Ha, Hb.
  split; [done|]. by apply Qmult_lt_0_compat.
Qed.

(** What the pricing step of an ordinary round returns: a positive price
    and pre-money valuation, and a post-money valuation. *)
Lemma priceRound_ordinary_values r (total : exact) :
  ordinary_round r = true ->
  positive total = true ->
  exists sp pm q ns,
    priceRound total r = Return (sp, pm, Some q, ns) /\
    positive sp = true /\ positive pm = true /\ nonneg ns = true /\ ok q = true /\
    val pm == val sp * val total /\
    val ns * val sp == val (capitalRaised r) /\
    val q == val pm + val (capitalRaised r).
Proof.
  intros Hr Ht.
  destruct (priceRound_ordinary r total Hr Ht) as (sp & pm & po & ns & Hp & Hsp & Hns).
  pose proof Ht as Ht'. apply positive_spec in Ht' as [Htok Htpos].
  pose proof Hsp as Hsp'. apply positive_spec in Hsp' as [Hspok Hsppos].
  pose proof Hns as Hns'. apply nonneg_spec in Hns' as [Hnsok Hnspos].
  unfold ordinary_round in Hr. destruct (esopAdjustment r); [done|].
  apply andb_true_iff in Hr as [HC Hr].
  pose proof HC as HC'. apply nonneg_spec in HC' as [HCok HCpos].
  unfold priceRound in Hp |- *. destruct (round_type r).
  - destruct (pricedTerms r) as [terms|]; [|done]. cbn [deref] in Hp |- *.
    rewrite bind_Return in Hp |- *.
    destruct (given (preMoneyValuation terms)) eqn:Hg.
    + injection Hp as <- <- <- <-.
      pose proof Hr as Hr'. apply positive_spec in Hr' as [Hpmok Hpmpos].
      eexists _, _, _, _. split; [reflexivity|]. split_and!; try done.
      * simpl. by rewrite Hpmok, HCok.
      * simpl. field. lra.
      * simpl in *. field. split; lra.
    + injection Hp as <- <- <- <-.
      pose proof Hr as Hr'. apply positive_spec in Hr' as [Hpmok Hpmpos].
      destruct (postMoneyValuation terms) as [q|]; [|done].
      eexists _, _, _, _. split; [reflexivity|]. split_and!; try done.
      * simpl in Hpmok. by apply andb_true_iff in Hpmok as [? _].
      * simpl. field. lra.
      * simpl in *. field. split; lra.
      * simpl. ring.
  - destruct (safeTerms r) as [terms|]; [|done]. cbn [deref] in Hp |- *.
    rewrite bind_Return in Hp |- *.
    destruct (given (valuationCap terms)); [|done]. rewrite bind_Return in Hp |- *.
    injection Hp as <- <- <- <-.
    eexists _, _, _, _. split; [reflexivity|].
    match goal with |- positive ?X = true /\ _ => set (sp := X) in * end.
    change (positive sp = true) in Hsp.
    change (nonneg (div (capitalRaised r) sp) = true) in Hns.
    clear Hspok Hsppos Hnsok Hnspos. clearbody sp.
    pose proof (positive_mul _ _ Hsp Ht) as Hpm.
    apply positive_spec in Hsp as [Hspok Hsppos].
    split_and!; try done.
    + by apply positive_spec.
    + simpl. by rewrite Hspok, Htok, HCok.
    + simpl. field. lra.
Qed.

(** The state an ordinary round returns, with what pricing returned. *)
Lemma processRound_ordinary_values h s r e :
  h !! state_esop s = Some e ->
  positive (totalShares s) = true ->
  ordinary_round r = true ->
  exists sp pm q ns,
    let total' := add (totalShares s) ns in
    processRound h s r =
      Return (<[state_esop s := {| esop_shares := esop_shares e;
                                   esop_percentage := percent_of (esop_shares e) total' |}]> h,
              {| preRoundState := s;
                 postRoundState :=
                   {| totalShares := total';
                      state_founders :=
                        map (fun f => {| fs_id := fs_id f; fs_name := fs_name f;
                                         fs_shares := fs_shares f;
                                         fs_percentage := percent_of (fs_shares f) total' |})
                            (state_founders s);
                      state_esop := state_esop s;
                      state_investors :=
                        map (fun i => {| inv_id := inv_id i; inv_name := inv_name i;
                                         inv_shares := inv_shares i;
                                         inv_percentage := percent_of (inv_shares i) total';
                                         investmentAmount := investmentAmount i |})
                            (state_investors s) ++ [new_investor r ns total'] |};
                 newShares := ns; sharePrice := sp;
                 valuation := {| preMoney := pm; postMoney := Some q |} |}) /\
    positive sp = true /\ positive pm = true /\ nonneg ns = true /\ ok q = true /\
    val pm == val sp * val (totalShares s) /\
    val ns * val sp == val (capitalRaised r) /\
    val q == val pm + val (capitalRaised r).
Proof.
  intros He HT Hr.
  destruct (priceRound_ordinary_values r (totalShares s) Hr HT)
    as (sp & pm & q & ns & Hp & Hrest).
  exists sp, pm, q, ns. split; [|exact Hrest].
  apply (processRound_plain h s r e sp pm (Some q) ns Hp); [|done].
  unfold ordinary_round in Hr. by destruct (esopAdjustment r).
Qed.

End Exact_round.

(** X11.  Price, shares and valuations of a round agree.  In exact
    arithmetic, for a financing event without a pool directive that raises a
    non-negative amount at a positive valuation: the new shares times the
    share price are the capital raised; the pre-money valuation is the share
    price times the shares before the round; the post-money valuation is the
    pre-money valuation plus the capital, and the share price times the
    shares after the round. *)
Theorem round_pricing_consistent (h : store exact) (s : CapTableState exact)
    (r : FundingRound exact) (e : EsopState exact) :
  h !! state_esop s = Some e ->
  positive (totalShares s) = true ->
  ordinary_round r = true ->
  exists h' res post,
    processRound h s r = Return (h', res) /\
    postMoney (valuation res) = Some post /\
    (0 < val (sharePrice res))%Q /\
    (val (newShares res) * val (sharePrice res) == val (capitalRaised r))%Q /\
    (val (preMoney (valuation res)) == val (sharePrice res) * val (totalShares s))%Q /\
    (val post == val (preMoney (valuation res)) + val (capitalRaised r))%Q /\
    (val post == val (sharePrice res) * val (totalShares (postRoundState res)))%Q.
Proof.
  intros He HT Hr.
  destruct (processRound_ordinary_values h s r e He HT Hr)
    as (sp & pm & q & ns & Hrun & Hsp & Hpm & Hns & Hq & Epm & Ens & Eq).
  cbv zeta in Hrun. rewrite Hrun. eexists _, _, _. split; [reflexivity|].
  cbn [valuation postMoney preMoney sharePrice newShares postRoundState totalShares].
  apply positive_spec in Hsp as [_ Hsppos].
  split_and!; try done.
  change (val (add (totalShares s) ns)) with (val (totalShares s) + val ns)%Q.
  rewrite Eq, Epm, <- Ens. ring.
Qed.

Lemma round_pricing_consistent_witness :
  exists h' res post,
    processRound pooled_store pooled_state
      (postpricedRound (of_Z 1000000) (of_Z 5000000) : FundingRound exact)
    = Return (h', res) /\
    postMoney (valuation res) = Some post /\
    (0 < val (sharePrice res))%Q /\
    (val (newShares res) * val (sharePrice res) == 1000000)%Q /\
    (val (preMoney (valuation res)) == val (sharePrice res) * 10000000)%Q /\
    (val post == val (preMoney (valuation res)) + 1000000)%Q /\
    (val post == val (sharePrice res) * val (totalShares (postRoundState res)))%Q.
Proof.
  refine (round_pricing_consistent pooled_store pooled_state
            (postpricedRound (of_Z 1000000) (of_Z 5000000))
            {| esop_shares := of_Z 1000000; esop_percentage := of_Z 10 |} _ _ _);
    reflexivity.
Defined.

Lemma Forall2_map_r_intro {A B} (P : A -> B -> Prop) (g : A -> B) (l : list A) :
  (forall x, P x (g x)) -> Forall2 P l (map g l).
Proof. intros HP. induction l; simpl; by constructor. Qed.

(** X12.  Dilution.  In exact arithmetic, for a financing event without a
    pool directive that raises a non-negative amount at a positive
    valuation: the new investor's percentage is the capital raised over the
    post-money valuation, and the percentage of every founder, of every
    earlier investor and of the pool is the holder's share of the previous
    total scaled by the pre-money over the post-money valuation. *)
Theorem round_dilution (h : store exact) (s : CapTableState exact)
    (r : FundingRound exact) (e : EsopState exact) :
  h !! state_esop s = Some e ->
  positive (totalShares s) = true ->
  ordinary_round r = true ->
  exists h' res post earlier new e',
    processRound h s r = Return (h', res) /\
    postMoney (valuation res) = Some post /\
    state_investors (postRoundState res) = earlier ++ [new] /\
    pool_of h' (postRoundState res) = Some e' /\
    let scale := (val (preMoney (valuation res)) / val post)%Q in
    let before (shares : exact) := (val shares / val (totalShares s) * 100)%Q in
    (val (inv_percentage new) == val (capitalRaised r) / val post * 100)%Q /\
    Forall2 (fun f f' => (val (fs_percentage f') == before (fs_shares f) * scale)%Q)
            (state_founders s) (state_founders (postRoundState res)) /\
    Forall2 (fun i i' => (val (inv_percentage i') == before (inv_shares i) * scale)%Q)
            (state_investors s) earlier /\
    (val (esop_percentage e') == before (esop_shares e) * scale)%Q.
Proof.
  intros He HT Hr.
  destruct (processRound_ordinary_values h s r e He HT Hr)
    as (sp & pm & q & ns & Hrun & Hsp & Hpm & Hns & Hq & Epm & Ens & Eq).
  cbv zeta in Hrun. rewrite Hrun. eexists _, _, _, _, _, _. split; [reflexivity|].
  cbn [valuation postMoney preMoney sharePrice newShares postRoundState totalShares
       state_founders state_investors state_esop].
  split; [reflexivity|]. split; [reflexivity|]. unfold pool_of. cbn [state_esop].
  split; [apply list_lookup_insert_eq; by eapply lookup_lt_Some|].
  apply positive_spec in HT as [_ HTpos], Hsp as [_ Hsppos].
  apply nonneg_spec in Hns as [_ Hnspos].
  assert (Hscaled : forall x : exact,
             (val (percent_of x (add (totalShares s) ns))
              == val x / val (totalShares s) * 100 * (val pm / val q))%Q).
  { intros x. rewrite Eq, Epm, <- Ens. simpl. change (inject_Z 100) with 100%Q.
    field. split_and!; try lra.
    assert (0 < val sp * val (totalShares s) + val ns * val sp)%Q; [|lra].
    assert (0 < val sp * val (totalShares s))%Q by (by apply Qmult_lt_0_compat).
    assert (0 <= val ns * val sp)%Q by (apply Qmult_le_0_compat; lra). lra. }
  cbv zeta. split_and!.
  - cbn [new_investor inv_percentage]. rewrite Hscaled, Eq, Epm, <- Ens.
    field. split; [|lra].
    assert (0 < val sp * val (totalShares s))%Q by (by apply Qmult_lt_0_compat).
    assert (0 <= val ns * val sp)%Q by (apply Qmult_le_0_compat; lra). lra.
  - apply Forall2_map_r_intro. intros f. apply Hscaled.
  - apply Forall2_map_r_intro. intros i. apply Hscaled.
  - apply Hscaled.
Qed.

Lemma round_dilution_witness :
  exists h' res post earlier new e',
    processRound pooled_store pooled_state
      (pricedRound (of_Z 1000000) (of_Z 4000000) None : FundingRound exact)
    = Return (h', res) /\
    postMoney (valuation res) = Some post /\
    state_investors (postRoundState res) = earlier ++ [new] /\
    pool_of h' (postRoundState res) = Some e' /\
    let scale := (val (preMoney (valuation res)) / val post)%Q in
    let before (shares : exact) := (val shares / 10000000 * 100)%Q in
    (val (inv_percentage new) == 1000000 / val post * 100)%Q /\
    Forall2 (fun f f' => (val (fs_percentage f') == before (fs_shares f) * scale)%Q)
            (state_founders pooled_state) (state_founders (postRoundState res)) /\
    Forall2 (fun i i' => (val (inv_percentage i') == before (inv_shares i) * scale)%Q)
            (state_investors pooled_state) earlier /\
    (val (esop_percentage e') == before (of_Z 1000000) * scale)%Q.
Proof.
  refine (round_dilution pooled_store pooled_state
            (pricedRound (of_Z 1000000) (of_Z 4000000) None)
            {| esop_shares := of_Z 1000000; esop_percentage := of_Z 10 |} _ _ _);
    reflexivity.
Defined.

(** X13.  The return multiple of the newest investor.  In exact
    arithmetic, when a financing event without a pool directive raises a
    positive amount at a positive valuation and the company is then sold,
    the investor of that event gets back the exit valuation over the
    post-money valuation of the round, times the amount invested. *)
Theorem newest_investor_multiple (h : store exact) (s : CapTableState exact)
    (r : FundingRound exact) (e : EsopState exact) (V : exact) :
  h !! state_esop s = Some e ->
  positive (totalShares s) = true ->
  ordinary_round r = true ->
  positive (capitalRaised r) = true ->
  ok V = true ->
  exists h' res post sim ir,
    processRound h s r = Return (h', res) /\
    postMoney (valuation res) = Some post /\
    simulateExit h' (postRoundState res) V = Return sim /\
    last (investorReturns sim) = Some ir /\
    investorId ir = String.append "investor-" (round_id r) /\
    ok (multiple ir) = true /\
    (val (multiple ir) == val V / val post)%Q /\
    (val (ir_cashReturn ir) == val (multiple ir) * val (capitalRaised r))%Q.
Proof.
  intros He HT Hr HC HV.
  destruct (processRound_ordinary_values h s r e He HT Hr)
    as (sp & pm & q & ns & Hrun & Hsp & Hpm & Hns & Hq & Epm & Ens & Eq).
  cbv zeta in Hrun. rewrite Hrun. eexists _, _, _, _, _. split; [reflexivity|].
  cbn [valuation postMoney postRoundState]. split; [reflexivity|].
  unfold simulateExit. cbn [state_esop state_investors state_founders].
  rewrite list_lookup_insert_eq by (by eapply lookup_lt_Some).
  cbn [deref]. rewrite bind_Return. split; [reflexivity|].
  cbn [investorReturns]. rewrite map_app. cbn [map]. rewrite last_snoc.
  split; [reflexivity|].
  cbn [new_investor investorId multiple ir_cashReturn inv_id inv_percentage investmentAmount].
  split; [reflexivity|].
  apply positive_spec in HT as [HTok HTpos], Hsp as [Hspok Hsppos], HC as [HCok HCpos].
  apply nonneg_spec in Hns as [Hnsok Hnspos].
  assert (HT' : (0 < val (totalShares s) + val ns)%Q) by lra.
  assert (Hpost : (0 < val sp * val (totalShares s) + val ns * val sp)%Q).
  { assert (0 < val sp * val (totalShares s))%Q by (by apply Qmult_lt_0_compat).
    assert (0 <= val ns * val sp)%Q by (apply Qmult_le_0_compat; lra). lra. }
  split_and!.
  - simpl. rewrite Hnsok, HTok, HV, HCok, (Qeq_bool_pos _ HT'), (Qeq_bool_pos _ HCpos).
    reflexivity.
  - assert (Hns' : (0 < val ns)%Q).
    { destruct (Qlt_le_dec 0 (val ns)) as [|Hle]; [done|]. exfalso.
      assert (Hz : (val ns == 0)%Q) by lra.
      rewrite <- Ens, Hz in HCpos. lra. }
    rewrite Eq, Epm. simpl. change (inject_Z 100) with 100%Q. rewrite <- Ens.
    field. split_and!; lra.
  - simpl. change (inject_Z 100) with 100%Q. field. lra.
Qed.

Lemma newest_investor_multiple_witness :
  exists h' res post sim ir,
    processRound pooled_store pooled_state
      (pricedRound (of_Z 1000000) (of_Z 4000000) None : FundingRound exact)
    = Return (h', res) /\
    postMoney (valuation res) = Some post /\
    simulateExit h' (postRoundState res) (of_Z 50000000) = Return sim /\
    last (investorReturns sim) = Some ir /\
    investorId ir = "investor-round-0" /\
    ok (multiple ir) = true /\
    (val (multiple ir) == 50000000 / val post)%Q /\
    (val (ir_cashReturn ir) == val (multiple ir) * 1000000)%Q.
Proof.
  refine (newest_investor_multiple pooled_store pooled_state
            (pricedRound (of_Z 1000000) (of_Z 4000000) None)
            {| esop_shares := of_Z 1000000; esop_percentage := of_Z 10 |}
            (of_Z 50000000) _ _ _ _ _);
    reflexivity.
Defined.

(** X14.  A discount that is positive always sets the price of a
    convertible instrument: the discounted price is taken from the cap
    price itself, so it is the lower of the two.  A discount that is
    negative is ignored, the cap price being the lower one. *)
Theorem discount_sets_the_price (r : FundingRound exact) (terms : SafeTerms exact)
    (total V d : exact) :
  round_type r = SAFE ->
  safeTerms r = Some terms ->
  valuationCap terms = Some V ->
  discount terms = Some d ->
  positive V = true ->
  positive total = true ->
  ok d = true ->
  exists sp pm po ns,
    priceRound total r = Return (sp, pm, po, ns) /\
    ((0 < val d)%Q -> (val sp == val V / val total * (1 - val d / 100))%Q) /\
    ((val d <= 0)%Q -> (val sp == val V / val total)%Q).
Proof.
  intros Hty Hterms HV Hd HVpos HT Hdok.
  apply positive_spec in HVpos as [HVok HVpos], HT as [HTok HTpos].
  assert (Htr : truthy V = true).
  { simpl. unfold Ex.truthy. by rewrite HVok, (Qeq_bool_pos _ HVpos). }
  rewrite (priceRound_safe r terms total V Hty Hterms HV Htr). rewrite Hd.
  eexists _, _, _, _. split; [reflexivity|].
  assert (Hp : (0 < val V / val total)%Q) by (by apply Qdiv_pos).
  simpl. unfold Ex.truthy. rewrite Hdok. simpl. change (inject_Z 100) with 100%Q.
  change (inject_Z 1) with 1%Q.
  destruct (Qeq_bool (val d) 0) eqn:Hz; simpl.
  - apply Qeq_bool_iff in Hz. split; [intros; exfalso; lra | reflexivity].
  - assert (Hnz : ~ (val d == 0)%Q).
    { intros Hz'. apply Qeq_bool_iff in Hz'. congruence. }
    destruct (Qle_bool _ _) eqn:Hle.
    + apply Qle_bool_iff in Hle. split; [|reflexivity]. intros Hpos. exfalso.
      assert (val V / val total * (val d / 100) <= 0)%Q by lra.
      assert (0 < val V / val total * (val d / 100))%Q; [|lra].
      apply Qmult_lt_0_compat; [done|]. apply Qdiv_pos; lra.
    + split; [reflexivity|]. intros Hneg. exfalso.
      assert (Hlt : ~ (val V / val total <= val V / val total * (1 - val d / 100))%Q).
      { intros Hle'. apply Qle_bool_iff in Hle'. congruence. }
      apply Hlt. set (p := (val V / val total)%Q) in *.
      assert (Hprod : (0 <= p * (- val d / 100))%Q).
      { apply Qmult_le_0_compat; [lra|]. apply Qdiv_nonneg; lra. }
      setoid_replace (p * (1 - val d / 100))%Q with (p + p * (- val d / 100))%Q
        using relation Qeq by field.
      lra.
Qed.

Lemma discount_sets_the_price_witness :
  exists sp pm po ns,
    priceRound (of_Z 10000000)
      (safeRound (of_Z 250000) (Some (of_Z 10000000)) (Some (of_Z 20)) : FundingRound exact)
    = Return (sp, pm, po, ns) /\
    ((0 < 20)%Q -> (val sp == 10000000 / 10000000 * (1 - 20 / 100))%Q) /\
    ((20 <= 0)%Q -> (val sp == 10000000 / 10000000)%Q).
Proof.
  refine (discount_sets_the_price
            (safeRound (of_Z 250000) (Some (of_Z 10000000)) (Some (of_Z 20)))
            {| valuationCap := Some (of_Z 10000000); discount := Some (of_Z 20) |}
            (of_Z 10000000) (of_Z 10000000) (of_Z 20) _ _ _ _ _ _ _);
    reflexivity.
Defined.

(** ** Pool top-ups in exact arithmetic *)

Section Exact_topup.

Local Open Scope Q_scope.

Implicit Types (h : store exact) (s : CapTableState exact) (r : FundingRound exact).

(** A target above the pool's present share of the total. *)
Lemma target_above_pool (target E T : exact) :
  le target (percent_of E T) = false ->
  ok target = true -> ok E = true -> positive T = true ->
  val E / val T * 100 < val target.
Proof.
  intros Hle Htarget HE HT. apply positive_spec in HT as [HT HTpos].
  simpl in Hle. unfold Ex.le in Hle. simpl in Hle.
  rewrite Htarget, HE, HT, (Qeq_bool_pos _ HTpos) in Hle. simpl in Hle.
  change (inject_Z 100) with 100 in Hle.
  destruct (Qlt_le_dec (val E / val T * 100) (val target)) as [|Hle']; [done|].
  apply Qle_bool_iff in Hle'. congruence.
Qed.

End Exact_topup.





(** ** Rounding at founding *)

Section Exact_founding.

Local Open Scope Q_scope.

(** [Math.round] moves a number by half a unit at most. *)
Lemma round_near (x : exact) :
  val x - (1 # 2) <= val (Math_round x) <= val x + (1 # 2).
Proof.
  change (val (Math_round x)) with (inject_Z (Qfloor (val x + (1 # 2)))).
  pose proof (Qfloor_le (val x + (1 # 2))) as Hlo.
  pose proof (Qlt_floor (val x + (1 # 2))) as Hhi.
  rewrite inject_Z_plus in Hhi. change (inject_Z 1) with 1 in Hhi.
  split; lra.
Qed.

Lemma sumv_round_near {A} (g : A -> exact) (l : list A) :
  let n := inject_Z (Z.of_nat (length l)) in
  sumv g l - n / 2 <= sumv (fun x => Math_round (g x)) l <= sumv g l + n / 2.
Proof.
  induction l as [|x l IH].
  - simpl. change (inject_Z 0) with 0.
    setoid_replace (0 / 2) with 0 using relation Qeq by reflexivity. split; lra.
  - cbn [length sumv]. rewrite Nat2Z.inj_succ, <- Z.add_1_r, inject_Z_plus.
    change (inject_Z 1) with 1. cbv zeta in IH |- *.
    pose proof (round_near (g x)) as Hx.
    set (n := inject_Z (Z.of_nat (length l))) in *.
    setoid_replace ((n + 1) / 2) with (n / 2 + (1 # 2)) using relation Qeq by field.
    change (sumv g (x :: l)) with (val (g x) + sumv g l).
    change (sumv (fun x0 => Math_round (g x0)) (x :: l))
      with (val (Math_round (g x)) + sumv (fun x0 => Math_round (g x0)) l).
    destruct IH, Hx. split; lra.
Qed.

End Exact_founding.

(** X17.  How far the founding share counts can be from the share base.
    [createInitialState] rounds each founder's and each pool's share count on
    its own and accepts percentages that sum to 100 within 0.01.  In exact
    arithmetic the shares it hands out therefore differ from the 10,000,000
    of the share base by at most 1,000 shares plus half a share per founder
    and pool. *)
Theorem founding_share_discrepancy (fs : list (Founder exact)) (ps : list (ESOPPool exact))
    h0 s0 :
  createInitialState [] fs ps = Return (h0, s0) ->
  allok initialEquity fs = true ->
  allok pool_percentage ps = true ->
  exists x,
    share_sum h0 s0 = Some x /\
    ok x = true /\
    (Qabs (val x - val (totalShares s0))
     <= 1000 + inject_Z (Z.of_nat (length fs + length ps)) / 2)%Q.
Proof.
  intros Hinit HF HP. unfold createInitialState in Hinit.
  destruct (gt _ _) eqn:Hgt; [done|]. cbn [alloc app length] in Hinit.
  injection Hinit as <- <-.
  apply founding_guard_exact in Hgt; [|simpl; by rewrite !reduce_sum_ok, HF, HP].
  cbn [val add exact_JsNumber Ex.lift2] in Hgt. rewrite !reduce_sum_val in Hgt.
  match goal with
  | |- exists x, share_sum ?h ?s = Some x /\ _ =>
      destruct (share_sum_exact h s _ eq_refl) as (x & Hx & Hokx & Hvalx)
  end.
  exists x. split; [exact Hx|].
  cbn [state_founders state_investors esop_shares totalShares] in Hokx, Hvalx |- *.
  rewrite reduce_sum_ok, allok_map in Hokx. rewrite reduce_sum_val, sumv_map in Hvalx.
  cbn [fs_shares] in Hokx, Hvalx.
  pose (share_f := fun f : Founder exact =>
                     mul (div (initialEquity f) (of_Z 100)) INITIAL_SHARES).
  pose (share_p := fun p : ESOPPool exact =>
                     mul (div (pool_percentage p) (of_Z 100)) INITIAL_SHARES).
  assert (Hokx' : ok x = allok (fun f => Math_round (share_f f)) fs
                         && allok (fun p => Math_round (share_p p)) ps && true)
    by exact Hokx.
  assert (Hvalx' : (val x == sumv (fun f => Math_round (share_f f)) fs
                            + sumv (fun p => Math_round (share_p p)) ps + 0)%Q)
    by exact Hvalx.
  clear Hokx Hvalx. rename Hokx' into Hokx, Hvalx' into Hvalx.
  split.
  - rewrite Hokx.
    rewrite (allok_ext (fun f => Math_round (share_f f)) initialEquity)
      by (intros f; simpl; by rewrite !andb_true_r).
    rewrite (allok_ext (fun p => Math_round (share_p p)) pool_percentage)
      by (intros p; simpl; by rewrite !andb_true_r).
    by rewrite HF, HP.
  - pose proof (sumv_round_near share_f fs) as Hf.
    pose proof (sumv_round_near share_p ps) as Hp. cbv zeta in Hf, Hp.
    pose proof (sumv_share_of initialEquity fs INITIAL_SHARES) as Ef.
    pose proof (sumv_share_of pool_percentage ps INITIAL_SHARES) as Ep.
    change (sumv share_f fs == sumv initialEquity fs / 100 * 10000000)%Q in Ef.
    change (sumv share_p ps == sumv pool_percentage ps / 100 * 10000000)%Q in Ep.
    rewrite Ef in Hf. rewrite Ep in Hp.
    rewrite Nat2Z.inj_add, inject_Z_plus.
    set (n := inject_Z (Z.of_nat (length fs))) in *.
    set (m := inject_Z (Z.of_nat (length ps))) in *.
    clearbody share_f share_p.
    change (val (Ex.fin (inject_Z 10000000))) with 10000000%Q.
    apply Qabs_Qle_condition in Hgt as [Hlo Hhi].
    apply Qabs_Qle_condition. rewrite Hvalx.
    setoid_replace ((n + m) / 2)%Q with (n / 2 + m / 2)%Q using relation Qeq by field.
    set (F := sumv initialEquity fs) in *. set (P := sumv pool_percentage ps) in *.
    setoid_replace (F / 100 * 10000000)%Q with (F * 100000)%Q using relation Qeq in Hf
      by field.
    setoid_replace (P / 100 * 10000000)%Q with (P * 100000)%Q using relation Qeq in Hp
      by field.
    setoid_replace (1 / 100)%Q with (1 # 100)%Q using relation Qeq in Hlo by reflexivity.
    setoid_replace (1 / 100)%Q with (1 # 100)%Q using relation Qeq in Hhi by reflexivity.
    destruct Hf, Hp. split; lra.
Qed.

Lemma founding_share_discrepancy_witness :
  exists h0 s0 x,
    createInitialState [] (founders (thirds_scenario : Scenario exact))
                       (esopPools (thirds_scenario : Scenario exact)) = Return (h0, s0) /\
    share_sum h0 s0 = Some x /\
    ok x = true /\
    (val x == 9999999)%Q /\
    (Qabs (val x - val (totalShares s0)) <= 1000 + inject_Z (Z.of_nat (3 + 0)) / 2)%Q.
Proof.
  eexists _, _. 
  edestruct (founding_share_discrepancy (founders (thirds_scenario : Scenario exact))
               (esopPools (thirds_scenario : Scenario exact)))
    as (x & Hx & Hok & Hbound); [vm_compute; reflexivity | reflexivity | reflexivity |].
  exists x. split; [vm_compute; reflexivity|]. split; [exact Hx|]. split; [exact Hok|].
  split; [|exact Hbound].
  vm_compute in Hx. injection Hx as <-. reflexivity.
Defined.

(** ** Not-a-number and zero in binary64 *)

Module F64_more.

Local Open Scope float_scope.

Lemma add_nan_l x : nan + x = nan.
Proof. apply Prim2SF_inj. rewrite add_spec, F64_facts.Prim2SF_nan. reflexivity. Qed.

(** A sum that has met not-a-number stays there. *)
Lemma fold_add_nan {A} (f : A -> float) (l : list A) :
  fold_left (fun sum x => sum + f x) l nan = nan.
Proof. induction l as [|x l IH]; simpl; [done|]. by rewrite add_nan_l. Qed.

Lemma fold_add_meets_nan {A} (f : A -> float) (l : list A) (x : A) :
  In x l -> f x = nan -> forall a, fold_left (fun sum x => sum + f x) l a = nan.
Proof.
  induction l as [|y l IH]; simpl; [done|].
  intros [->|Hin] Hx a.
  - by rewrite Hx, F64_facts.add_nan_r, fold_add_nan.
  - by apply IH.
Qed.

(** What is strictly equal to zero is a zero. *)
Lemma eqb_zero x : (x =? 0) = true -> exists s, Prim2SF x = S754_zero s.
Proof.
  rewrite FloatAxioms.eqb_spec. change (Prim2SF 0) with (S754_zero false).
  destruct (Prim2SF x) as [s|s| |s m e]; try done; try (by eexists); by destruct s.
Qed.

(** Division by a zero gives an infinity or not-a-number. *)
Lemma div_zero_not_finite x z : (z =? 0) = true -> not_finite (x / z) = true.
Proof.
  intros Hz. apply eqb_zero in Hz as [s Hz]. unfold not_finite.
  rewrite div_spec, Hz. by destruct (Prim2SF x) as [[]|[]| |[] m e].
Qed.

End F64_more.

(** X18.  Not-a-number passes the founding check.  In binary64 a founder
    whose initial equity is NaN makes the total NaN, and a NaN total is not
    more than 0.01 away from 100: [validateScenario] reports nothing and
    [createInitialState] returns a state, in which that founder holds NaN
    shares. *)
Theorem nan_equity_is_accepted (sc : Scenario float) (f : Founder float) :
  In f (founders sc) ->
  initialEquity f = nan ->
  validateScenario (as_partial sc) = Return [] /\
  exists h0 s0,
    createInitialState [] (founders sc) (esopPools sc) = Return (h0, s0) /\
    In {| fs_id := founder_id f; fs_name := founder_name f;
          fs_shares := nan; fs_percentage := nan |} (state_founders s0).
Proof.
  intros Hin Hnan.
  assert (Hsum : reduce_sum initialEquity (founders sc) = nan).
  { unfold reduce_sum. by eapply F64_more.fold_add_meets_nan. }
  assert (Hgt : gt (Math_abs (sub (add (reduce_sum initialEquity (founders sc))
                                       (reduce_sum pool_percentage (esopPools sc)))
                                  (of_Z 100))) (decimal 1 2) = false).
  { rewrite Hsum. change (add nan ?x) with (PrimFloat.add nan x).
    rewrite F64_more.add_nan_l. reflexivity. }
  split.
  - rewrite validateScenario_complete, Hgt.
    destruct (founders sc); [done|reflexivity].
  - unfold createInitialState. rewrite Hgt. cbn [alloc]. eexists _, _.
    split; [reflexivity|]. cbn [state_founders].
    apply in_map_iff. exists f. split; [|done]. rewrite Hnan. reflexivity.
Qed.

Lemma nan_equity_is_accepted_witness :
  let sc : Scenario float :=
    {| founders := [founder0 (of_Z 60); founder1 nan]; rounds := []; esopPools := [] |} in
  validateScenario (as_partial sc) = Return [] /\
  exists h0 s0,
    createInitialState [] (founders sc) (esopPools sc) = Return (h0, s0) /\
    In {| fs_id := "founder-1"; fs_name := "Founder 2";
          fs_shares := nan; fs_percentage := nan |} (state_founders s0).
Proof.
  intros sc. apply (nan_equity_is_accepted sc (founder1 nan)); [|reflexivity].
  simpl. auto.
Defined.

(** X19.  An investor who paid nothing has no finite multiple.  In binary64
    [simulateExit] divides the cash return by the amount invested; for an
    investor whose amount is zero -- the investor of a round that raised
    nothing -- the multiple it reports is an infinity or NaN, whatever the
    state and the exit valuation. *)
Theorem zero_investment_multiple (h : store float) (s : CapTableState float) (V : float)
    (sim : ExitSimulation float) k i ir :
  simulateExit h s V = Return sim ->
  state_investors s !! k = Some i ->
  investorReturns sim !! k = Some ir ->
  strict_eq (investmentAmount i) (of_Z 0) = true ->
  investorId ir = inv_id i /\ not_finite (multiple ir) = true.
Proof.
  unfold simulateExit. destruct (h !! state_esop s) as [e|]; [|done].
  cbn [deref]. rewrite bind_Return. intros [= <-] Hi Hir Hzero.
  cbn [investorReturns] in Hir. rewrite list_lookup_fmap, Hi in Hir.
  injection Hir as <-. cbn [investorId multiple]. split; [done|].
  by apply F64_more.div_zero_not_finite.
Qed.

Lemma zero_investment_multiple_witness :
  exists h s sim i ir,
    calculateCapTable
      ({| founders := [founder0 (of_Z 100)];
          rounds := [pricedRound (of_Z 0) (of_Z 4000000) None];
          esopPools := [] |} : Scenario float) = Return (h, [solo_state; s]) /\
    simulateExit h s (of_Z 50000000) = Return sim /\
    state_investors s !! 0%nat = Some i /\
    investorReturns sim !! 0%nat = Some ir /\
    investorId ir = inv_id i /\ not_finite (multiple ir) = true.
Proof.
  eexists _, _, _, _, _. split; [vm_compute; reflexivity|].
  lazymatch goal with
  | |- simulateExit ?h ?s ?V = Return _ /\ _ =>
      pose proof (fun sim => zero_investment_multiple h s V sim 0%nat) as Hthm
  end.
  split; [vm_compute; reflexivity|]. split; [reflexivity|]. split; [reflexivity|].
  eapply Hthm; [vm_compute; reflexivity | reflexivity | reflexivity | reflexivity].
Defined.

(** ** The pool never shrinks *)

Section Exact_pool.

Local Open Scope Q_scope.

Implicit Types (h : store exact) (s : CapTableState exact) (r : FundingRound exact).

(** The pool step in exact arithmetic: the state it returns refers to a
    pool record that holds at least the shares the pool held. *)
Lemma adjustESOPPool_grows h s (target : exact) isPre (ns : exact) e :
  h !! state_esop s = Some e ->
  positive (totalShares s) = true ->
  nonneg (esop_shares e) = true ->
  nonneg ns = true ->
  ok target = true ->
  exists h' s' e',
    adjustESOPPool h s target isPre ns = Return (h', s') /\
    h' !! state_esop s' = Some e' /\
    totalShares s' = totalShares s /\
    ok (esop_shares e') = true /\
    val (esop_shares e) <= val (esop_shares e').
Proof.
  intros He HT HE Hns Htarget. unfold adjustESOPPool. rewrite He. cbn [deref].
  rewrite bind_Return.
  destruct (le target (percent_of (esop_shares e) (totalShares s))) eqn:Hle.
  - exists h, s, e. apply nonneg_spec in HE as [HE _]. split_and!; try done. lra.
  - pose proof (target_above_pool _ _ _ Hle Htarget (proj1 (proj1 (nonneg_spec _) HE)) HT)
      as Habove.
    apply positive_spec in HT as [HT HTpos]. apply nonneg_spec in Hns as [Hns Hnspos].
    apply nonneg_spec in HE as [HE HEpos].
    assert (Hcur : 0 <= val (esop_shares e) / val (totalShares s) * 100).
    { apply Qmult_le_0_compat; [|lra]. by apply Qdiv_nonneg. }
    assert (Hold : val (esop_shares e) < val target / 100 * val (totalShares s)).
    { setoid_replace (val (esop_shares e))
        with (val (esop_shares e) / val (totalShares s) * 100 / 100 * val (totalShares s))
        using relation Qeq at 1 by (field; lra).
      apply Qmult_lt_compat_r; [done|]. apply Qmult_lt_compat_r; [reflexivity|done]. }
    destruct isPre; cbn [alloc]; eexists _, _, _; (split; [reflexivity|]);
      cbn [state_esop totalShares]; (split; [by apply list_lookup_middle|]);
      (split; [reflexivity|]); cbn [esop_shares].
    + split; [simpl; by rewrite HE, Htarget, HT, (Qeq_bool_pos _ HTpos)|].
      simpl. change (inject_Z 100) with 100.
      setoid_replace (val (esop_shares e)
                      + (val target - val (esop_shares e) / val (totalShares s) * 100)
                        / 100 * val (totalShares s))
        with (val target / 100 * val (totalShares s)) using relation Qeq by (field; lra).
      lra.
    + split; [simpl; by rewrite HE, Htarget, HT, Hns|].
      simpl. change (inject_Z 100) with 100.
      assert (Hposn : 0 <= val target / 100 * val ns).
      { apply Qmult_le_0_compat; [|done]. apply Qdiv_nonneg; lra. }
      setoid_replace (val (esop_shares e)
                      + (val target / 100 * (val (totalShares s) + val ns)
                         - val (esop_shares e)))
        with (val target / 100 * val (totalShares s) + val target / 100 * val ns)
        using relation Qeq by ring.
      lra.
Qed.

End Exact_pool.

(** X20.  The pool does not lose shares in a round that issues shares.  In
    exact arithmetic, for a round priced so that the number of new shares is
    finite and not negative, applied to a state whose total is positive and
    whose pool holds a non-negative number of shares: whatever pool
    directive with a finite target the round carries -- none, one below the
    pool's present share, one that tops the pool up before or after the
    money -- the pool of the returned state holds at least the shares the
    pool held before.  (A round priced at a negative valuation issues a
    negative number of shares and is outside this: a top-up after the money
    is sized against the smaller total.) *)
Theorem pool_never_shrinks (h : store exact) (s : CapTableState exact)
    (r : FundingRound exact) (e : EsopState exact) sp pm po ns :
  priceRound (totalShares s) r = Return (sp, pm, po, ns) ->
  h !! state_esop s = Some e ->
  positive (totalShares s) = true ->
  nonneg (esop_shares e) = true ->
  nonneg ns = true ->
  (forall adj, esopAdjustment r = Some adj -> ok (newPoolPercentage adj) = true) ->
  exists h' res e',
    processRound h s r = Return (h', res) /\
    pool_of h' (postRoundState res) = Some e' /\
    ok (esop_shares e') = true /\
    (val (esop_shares e) <= val (esop_shares e'))%Q.
Proof.
  intros Hp He HT HE Hns Hadj. unfold processRound. rewrite Hp, bind_Return.
  assert (Hstep : exists h1 s1 e1,
             match esopAdjustment r with
             | Some adj => adjustESOPPool h s (newPoolPercentage adj) (isPreMoney adj) ns
             | None => Return (h, s)
             end = Return (h1, s1) /\
             h1 !! state_esop s1 = Some e1 /\
             ok (esop_shares e1) = true /\
             (val (esop_shares e) <= val (esop_shares e1))%Q).
  { destruct (esopAdjustment r) as [adj|].
    - destruct (adjustESOPPool_grows h s (newPoolPercentage adj) (isPreMoney adj) ns e
                  He HT HE Hns (Hadj adj eq_refl))
        as (h1 & s1 & e1 & -> & He1 & _ & Hok & Hge).
      by exists h1, s1, e1.
    - exists h, s, e. apply nonneg_spec in HE as [HE _]. split_and!; try done. lra. }
  destruct Hstep as (h1 & s1 & e1 & -> & He1 & Hok & Hge).
  rewrite bind_Return, He1. cbn [deref]. rewrite bind_Return.
  eexists _, _, _. split; [reflexivity|]. unfold pool_of. cbn [postRoundState state_esop].
  split; [apply list_lookup_insert_eq; by eapply lookup_lt_Some|]. by split.
Qed.

Lemma pool_never_shrinks_witness :
  exists h' res e',
    processRound pooled_store pooled_state
      (pricedRound (of_Z 2000000) (of_Z 8000000)
         (Some {| newPoolPercentage := of_Z 15; isPreMoney := true |}) : FundingRound exact)
    = Return (h', res) /\
    pool_of h' (postRoundState res) = Some e' /\
    ok (esop_shares e') = true /\
    (1000000 <= val (esop_shares e'))%Q.
Proof.
  refine (pool_never_shrinks pooled_store pooled_state
            (pricedRound (of_Z 2000000) (of_Z 8000000)
               (Some {| newPoolPercentage := of_Z 15; isPreMoney := true |}))
            {| esop_shares := of_Z 1000000; esop_percentage := of_Z 10 |}
            _ _ _ _ _ _ _ _ _ _);
    try (vm_compute; reflexivity).
  intros adj [= <-]. reflexivity.
Defined.

(** Outside those hypotheses the pool can shrink: a priced round raising
    1,000,000 at a pre-money valuation of -4,000,000 issues -2,500,000
    shares, and its top-up to 11 percent after the money leaves the pool of
    1,000,000 shares with 825,000. *)
Example negative_valuation_shrinks_pool :
  exists h' res e',
    processRound pooled_store pooled_state
      (pricedRound (of_Z 1000000) (of_Z (-4000000))
         (Some {| newPoolPercentage := of_Z 11; isPreMoney := false |}) : FundingRound exact)
    = Return (h', res) /\
    (val (newShares res) == -2500000)%Q /\
    pool_of h' (postRoundState res) = Some e' /\
    ok (esop_shares e') = true /\
    (val (esop_shares e') == 825000)%Q.
Proof. vm_compute. eexists _, _, _. split; [reflexivity|]. by split_and!. Qed.
